(** * CityData.org: the aggregation endpoint of [server.js]

    A shallow embedding of the request handler [app.get("/api")] and of
    the functions it is built from: [safeFetch], [fetchOverpass],
    [getLocationStats], [categorizeAQI], [getCurrentAQI], [getAQIHistory],
    [getAQISection] and the two Overpass tallies.

    Conventions.
    - JavaScript strings are Stdlib strings; their characters are read as
      the code points U+0000..U+00FF.
    - A JavaScript number is a [number]: NaN, the two infinities, or a
      finite value, given by the rational it denotes (every finite double
      is one; comparisons of doubles are exact).
    - An object used as a dictionary (the [tags] of an OSM element) is a
      [gmap string string]; a missing key reads as [undefined], here [None].
    - A [Set] is the list of its members in insertion order.
    - Upstream services are an explicit [world]: what each call answers. *)

From Stdlib Require Import String Ascii List ZArith QArith Lia Bool.
From stdpp Require Import gmap strings list pretty.
Import ListNotations.

Local Open Scope string_scope.
Local Open Scope list_scope.

(** ** JavaScript numbers and the values an AQI field holds *)

Inductive number : Type :=
  | NaN
  | NegInfinity
  | Finite (q : Q)
  | Infinity.

(** [a <= b] on numbers: false as soon as one side is NaN. *)
Definition num_leb (a b : number) : bool :=
  match a, b with
  | NaN, _ => false
  | _, NaN => false
  | NegInfinity, _ => true
  | _, Infinity => true
  | Finite x, Finite y => Qle_bool x y
  | Finite _, NegInfinity => false
  | Infinity, _ => false
  end.

(** The order of the number line extended with the infinities; NaN is
    related to nothing. *)
Inductive num_le : number -> number -> Prop :=
  | le_from_neginf b : b <> NaN -> num_le NegInfinity b
  | le_finite x y : (x <= y)%Q -> num_le (Finite x) (Finite y)
  | le_to_inf a : a <> NaN -> num_le a Infinity.

(** Truthiness of a number: [0] and NaN are falsy. *)
Definition num_truthy (n : number) : bool :=
  match n with
  | NaN => false
  | Finite q => negb (Qeq_bool q 0)
  | NegInfinity | Infinity => true
  end.

(** [n || 0]. *)
Definition num_or_zero (n : number) : number :=
  if num_truthy n then n else Finite 0.

Definition is_NaN (n : number) : bool :=
  match n with NaN => true | _ => false end.

(** What [data.data.aqi] or an hourly PM2.5 sample can be: [null],
    [undefined] or a number (the spec's [number|null]). *)
Inductive value : Type :=
  | Null
  | Undefined
  | Num (n : number).

Definition lit (z : Z) : number := Finite (inject_Z z).

(** ** [categorizeAQI] (server.js:159-167) *)

Definition categorizeAQI (aqi : value) : string :=
  match aqi with
  | Null | Undefined => "No data"
  | Num n =>
      if num_leb n (lit 50) then "Good"
      else if num_leb n (lit 100) then "Moderate"
      else if num_leb n (lit 150) then "Unhealthy for Sensitive Groups"
      else if num_leb n (lit 200) then "Unhealthy"
      else if num_leb n (lit 300) then "Very Unhealthy"
      else "Hazardous"
  end.

(** The severity rank of a category; "No data" has none. *)
Definition severity (category : string) : option nat :=
  if String.eqb category "Good" then Some 0
  else if String.eqb category "Moderate" then Some 1
  else if String.eqb category "Unhealthy for Sensitive Groups" then Some 2
  else if String.eqb category "Unhealthy" then Some 3
  else if String.eqb category "Very Unhealthy" then Some 4
  else if String.eqb category "Hazardous" then Some 5
  else None.

(** ** Strings: [trim], [toLowerCase], [split(",")[0]] *)

(** White space among U+0000..U+00FF: TAB, LF, VT, FF, CR, SPACE, NBSP. *)
Definition is_space (c : ascii) : bool :=
  let n := nat_of_ascii c in
  (Nat.leb 9 n && Nat.leb n 13) || Nat.eqb n 32 || Nat.eqb n 160.

Fixpoint trimStart (s : string) : string :=
  match s with
  | EmptyString => EmptyString
  | String c rest => if is_space c then trimStart rest else s
  end.

Fixpoint trimEnd (s : string) : string :=
  match s with
  | EmptyString => EmptyString
  | String c rest =>
      match trimEnd rest with
      | EmptyString => if is_space c then EmptyString else String c EmptyString
      | kept => String c kept
      end
  end.

Definition trim (s : string) : string := trimEnd (trimStart s).

(** Upper-case letters among U+0000..U+00FF: A-Z and the Latin-1 capitals
    U+00C0..U+00DE without the multiplication sign U+00D7. *)
Definition lower_char (c : ascii) : ascii :=
  let n := nat_of_ascii c in
  if (Nat.leb 65 n && Nat.leb n 90)
     || (Nat.leb 192 n && Nat.leb n 222 && negb (Nat.eqb n 215))
  then ascii_of_nat (n + 32) else c.

Fixpoint toLowerCase (s : string) : string :=
  match s with
  | EmptyString => EmptyString
  | String c rest => String (lower_char c) (toLowerCase rest)
  end.

(** [s.split(",")[0]]: the text before the first comma. *)
Fixpoint before_comma (s : string) : string :=
  match s with
  | EmptyString => EmptyString
  | String c rest =>
      if Ascii.eqb c "," then EmptyString else String c (before_comma rest)
  end.

(** ** Promises *)

Inductive settled (A : Type) : Type :=
  | Pending
  | Resolved (v : A)
  | Rejected (err : string).
Arguments Pending {A}.
Arguments Resolved {A} v.
Arguments Rejected {A} err.

(** ** The dataset: rows of [data/final_cities.csv] as csv-parser emits them *)

(** A column the line does not have reads as [undefined]. *)
Record row : Type := {
  City : option string;
  District : option string;
  State : option string;
  Population : option string;
  Area : option string
}.

(** What the row stream emits before its ['end']: rows, or an error,
    after which a stream emits nothing more. *)
Inductive stream_event : Type :=
  | Data (r : row)
  | StreamError (err : string).

Record location_stats : Type := {
  population : number;
  area : number;
  matchedOn : string;
  name : option string
}.

(** The state one call of [getLocationStats] closes over: its flag
    [resolved], the promise it returned, whether [stream.destroy()] ran,
    and (for the proofs only) the rows the handler looked at. *)
Record lookup_state : Type := {
  resolved : bool;
  destroyed : bool;
  promise : settled location_stats;
  examined : list row
}.

Definition lookup_start : lookup_state :=
  {| resolved := false; destroyed := false; promise := Pending; examined := [] |}.

(** Settling a promise a second time does nothing. *)
Definition resolve (v : location_stats) (st : lookup_state) : lookup_state :=
  match promise st with
  | Pending =>
      {| resolved := resolved st; destroyed := destroyed st;
         promise := Resolved v; examined := examined st |}
  | _ => st
  end.

Definition reject (err : string) (st : lookup_state) : lookup_state :=
  match promise st with
  | Pending =>
      {| resolved := resolved st; destroyed := destroyed st;
         promise := Rejected err; examined := examined st |}
  | _ => st
  end.

Definition destroy (st : lookup_state) : lookup_state :=
  {| resolved := resolved st; destroyed := true;
     promise := promise st; examined := examined st |}.

Definition set_resolved (st : lookup_state) : lookup_state :=
  {| resolved := true; destroyed := destroyed st;
     promise := promise st; examined := examined st |}.

Definition look_at (r : row) (st : lookup_state) : lookup_state :=
  {| resolved := resolved st; destroyed := destroyed st;
     promise := promise st; examined := examined st ++ [r] |}.

(** [row.City?.trim().toLowerCase()] *)
Definition normalised (field : option string) : option string :=
  (fun s => toLowerCase (trim s)) <$> field.

(** [field === query], the left side possibly [undefined]. *)
Definition same (field : option string) (query : string) : bool :=
  match field with
  | Some s => String.eqb s query
  | None => false
  end.

(** The if / else-if chain of the ['data'] handler: [(matchedOn, name)]. *)
Definition match_field (query : string) (r : row) : option (string * option string) :=
  let city := normalised (City r) in
  let district := normalised (District r) in
  let state := normalised (State r) in
  if same city query then Some ("city", City r)
  else if same district query then Some ("district", District r)
  else if same state query then Some ("state", State r)
  else None.

Definition no_match_message : string :=
  "No matching state, district, or city found".

Section Runtime.

(** The built-in conversion of a string to a number; the code uses it
    through [Number(...)]. *)
Variable StringToNumber : string -> number.

(** [Number(x)] on a field that may be [undefined]. *)
Definition Number (x : option string) : number :=
  match x with
  | None => NaN
  | Some s => StringToNumber s
  end.

(** ** [getLocationStats] (server.js:100-152) *)

Definition stats_of (r : row) (matchedOn : string) (name : option string)
  : location_stats :=
  {| population := num_or_zero (Number (Population r));
     area := num_or_zero (Number (Area r));
     matchedOn := matchedOn;
     name := name |}.

(** [stream.on("data", row => ...)] *)
Definition on_data (query : string) (r : row) (st : lookup_state) : lookup_state :=
  if resolved st then st
  else
    let st := look_at r st in
    match match_field query r with
    | Some (matchedOn, name) =>
        resolve (stats_of r matchedOn name) (destroy (set_resolved st))
    | None => st
    end.

(** [stream.on("end", ...)] *)
Definition on_end (st : lookup_state) : lookup_state :=
  if resolved st then st else reject no_match_message st.

(** [stream.on("error", reject)] *)
Definition on_error (err : string) (st : lookup_state) : lookup_state :=
  reject err st.

(** The stream delivering its events to the three handlers. A destroyed
    stream delivers nothing; ['end'] follows the last row. *)
Fixpoint deliver (query : string) (events : list stream_event)
    (st : lookup_state) : lookup_state :=
  if destroyed st then st
  else
    match events with
    | [] => on_end st
    | Data r :: rest => deliver query rest (on_data query r st)
    | StreamError err :: _ => destroy (on_error err st)
    end.

Definition scan (searchValue : string) (events : list stream_event) : lookup_state :=
  deliver (toLowerCase (trim searchValue)) events lookup_start.

Definition getLocationStats (searchValue : string) (events : list stream_event)
  : settled location_stats :=
  promise (scan searchValue events).

End Runtime.

(** The stream of a file that reads without error. *)
Definition rows_of_file (file : list row) : list stream_event := Data <$> file.

(** ** Upstream calls *)

(** The two Overpass queries the handler sends, with the coordinates
    substituted into them. *)
Inductive overpass_query : Type :=
  | infraQuery (lat lon : number)
  | waterQuery (lat lon : number).

(** One entry per request the handler sends out (the file read included). *)
Inductive call : Type :=
  | Nominatim (cityName : string)
  | OpenMeteoForecast (lat lon : number)
  | DatasetFile (searchValue : string)
  | WaqiFeed (lat lon : number)
  | OpenMeteoAirQuality (lat lon : number)
  | OverpassPost (url : string) (query : overpass_query)
  | WikipediaSummary (cityName : string).

(** What [fetch] gives: it rejects, or it resolves to a response with a
    status, a body text, and the outcome of [res.json()] on that body
    (a rejection message or the parsed data). *)
Inductive reply (A : Type) : Type :=
  | Unreachable (message : string)
  | Answer (status : nat) (text : string) (parsed : string + A).
Arguments Unreachable {A} message.
Arguments Answer {A} status text parsed.

(** [res.ok]: a status in 200..299. *)
Definition ok (status : nat) : bool := Nat.leb 200 status && Nat.leb status 299.

(** Code that sends requests and may throw: the calls sent so far are
    threaded through, and the outcome is the thrown message or a value. *)
Definition M (A : Type) : Type := list call -> (string + A) * list call.

#[global] Instance M_ret : MRet M := fun A (x : A) sent => (inr x, sent).

#[global] Instance M_bind : MBind M := fun A B (f : A -> M B) (m : M A) sent =>
  match m sent with
  | (inl err, sent') => (inl err, sent')
  | (inr x, sent') => f x sent'
  end.

Definition throw {A : Type} (message : string) : M A :=
  fun sent => (inl message, sent).

Definition send (c : call) : M unit :=
  fun sent => (inr tt, sent ++ [c]).

(** [try { body } catch { handler }] *)
Definition try_catch {A : Type} (body : M A) (handler : string -> M A) : M A :=
  fun sent =>
    match body sent with
    | (inl err, sent') => handler err sent'
    | done => done
    end.

(** ** [safeFetch] (server.js:37-44) *)

Definition safeFetch {A : Type} (c : call) (r : reply A) : M A :=
  _ ← send c;
  match r with
  | Unreachable message => throw message
  | Answer status text parsed =>
      if negb (ok status)
      then throw ("Fetch failed (" ++ pretty status ++ "): " ++ text)
      else match parsed with
           | inl message => throw message
           | inr data => mret data
           end
  end.

(** ** [fetchOverpass] (server.js:46-64) *)

Record element : Type := { tags : option (gmap string string) }.

Record overpass_data : Type := { elements : list element }.

Definition OVERPASS_ENDPOINTS : list string :=
  [ "https://overpass-api.de/api/interpreter";
    "https://overpass.kumi.systems/api/interpreter";
    "https://overpass.nchc.org.tw/api/interpreter" ].

Definition all_failed_message : string := "All Overpass endpoints failed".

(** One turn of the loop body's [try]: the POST, whose outcome is [r],
    the [res.ok] test and [res.json()]; any throw lands in the [catch],
    which only warns. *)
Definition attempt (query : overpass_query) (url : string)
    (r : reply overpass_data) : M (option overpass_data) :=
  try_catch
    (_ ← send (OverpassPost url query);
     match r with
     | Unreachable message => throw message
     | Answer status _ parsed =>
         if negb (ok status) then throw EmptyString
         else match parsed with
              | inl message => throw message
              | inr data => mret (Some data)
              end
     end)
    (fun _ => mret None).

(** The [for ... of] loop, then the final throw, over a list of
    endpoints, each given with what its POST is answered. *)
Fixpoint fetchOverpassFrom (candidates : list (string * reply overpass_data))
    (query : overpass_query) : M overpass_data :=
  match candidates with
  | [] => throw all_failed_message
  | (url, r) :: rest =>
      res ← attempt query url r;
      match res with
      | Some data => mret data
      | None => fetchOverpassFrom rest query
      end
  end.

(** [fetchOverpass(query)], the network answering each endpoint by [net]. *)
Definition fetchOverpass (net : string -> reply overpass_data)
    (query : overpass_query) : M overpass_data :=
  fetchOverpassFrom ((fun url => (url, net url)) <$> OVERPASS_ENDPOINTS) query.

(** An endpoint succeeds when the POST resolves with an ok status and a
    body that parses. *)
Definition succeeds (r : reply overpass_data) : option overpass_data :=
  match r with
  | Answer status _ (inr data) => if ok status then Some data else None
  | _ => None
  end.

(** The POSTs sent when every one of [candidates] is tried. *)
Definition posts (query : overpass_query)
    (candidates : list (string * reply overpass_data)) : list call :=
  (fun c => OverpassPost c.1 query) <$> candidates.

(** ** Air quality (server.js:172-257) *)

(** The WAQI document: [data.status] and [data.data], the latter with
    [aqi], [iaqi] (pollutant to its [v]), [dominentpol] and [time.s]. *)
Record waqi_data : Type := {
  waqi_aqi : value;
  iaqi : option (gmap string value);
  dominentpol : option string;
  time_s : option string
}.

Record waqi_document : Type := {
  waqi_status : option string;
  waqi_body : option waqi_data
}.

Record aqi_reading : Type := {
  aqi : value;
  category : string;
  pollutants : list (string * value);
  dominentPollutant : option string;
  time : option string
}.

Definition no_data : aqi_reading :=
  {| aqi := Null; category := "No data"; pollutants := [];
     dominentPollutant := None; time := None |}.

(** [iaqi.p?.v ?? null] *)
Definition pollutant (table : gmap string value) (p : string) : string * value :=
  (p, match table !! p with
      | Some (Num n) => Num n
      | _ => Null
      end).

(** [s || null] on a string that may be missing. *)
Definition or_null (s : option string) : option string :=
  match s with
  | Some text => if String.eqb text EmptyString then None else Some text
  | None => None
  end.

Definition reading_of (d : waqi_data) : aqi_reading :=
  let table := default ∅ (iaqi d) in
  {| aqi := waqi_aqi d;
     category := categorizeAQI (waqi_aqi d);
     pollutants := pollutant table <$> ["pm25"; "pm10"; "no2"; "so2"; "o3"; "co"];
     dominentPollutant := or_null (dominentpol d);
     time := or_null (time_s d) |}.

Definition getCurrentAQI (lat lon : number) (r : reply waqi_document) : M aqi_reading :=
  try_catch
    (_ ← send (WaqiFeed lat lon);
     match r with
     | Unreachable message => throw message
     | Answer _ _ (inl message) => throw message
     | Answer _ _ (inr data) =>
         if negb (same (waqi_status data) "ok") then mret no_data
         else match waqi_body data with
              | None => mret no_data
              | Some d => mret (reading_of d)
              end
     end)
    (fun _ => mret no_data).

(** The Open-Meteo document: [data.hourly] with [time] and [pm2_5]. *)
Record hourly_series : Type := {
  hourly_time : option (list string);
  pm2_5 : option (list value)
}.

Record hourly_document : Type := { hourly : option hourly_series }.

Module History.
Record point : Type := {
  timestamp : option string;
  pm25 : value;
  aqi : string
}.
End History.

Definition getAQIHistory (lat lon : number) (r : reply hourly_document)
    : M (list History.point) :=
  try_catch
    (_ ← send (OpenMeteoAirQuality lat lon);
     match r with
     | Unreachable message => throw message
     | Answer _ _ (inl message) => throw message
     | Answer _ _ (inr data) =>
         match hourly data with
         | None => mret []
         | Some h =>
             match pm2_5 h with
             | None => mret []
             | Some [] => mret []
             | Some samples =>
                 match hourly_time h with
                 | None => throw "Cannot read properties of undefined"
                 | Some times =>
                     mret (imap (fun idx sample =>
                                   {| History.timestamp := times !! idx;
                                      History.pm25 := sample;
                                      History.aqi := categorizeAQI sample |})
                                samples)
                 end
             end
         end
     end)
    (fun _ => mret []).

Record aqi_section : Type := {
  currentAQI : aqi_reading;
  history : list History.point
}.

Definition getAQISection (lat lon : number) (current_reply : reply waqi_document)
    (history_reply : reply hourly_document) : M aqi_section :=
  current ← getCurrentAQI lat lon current_reply;
  history ← getAQIHistory lat lon history_reply;
  mret {| currentAQI := current; history := history |}.

(** What the variable [airQualityString] holds: the empty string it
    starts with, or the section once the task started at server.js:254
    has assigned it. *)
Inductive air_quality : Type :=
  | EmptyText
  | Section_ (s : aqi_section).

(** [(async () => { ... })()], started and not awaited. Its requests go
    out; [assigned] says whether its assignment ran before the handler
    reads the variable, which the code leaves to the arrival order of the
    replies. A throw inside the task never reaches the handler. *)
Definition detached (task : M aqi_section) (assigned : bool) : M air_quality :=
  fun sent =>
    match task sent with
    | (inr s, sent') => (inr (if assigned then Section_ s else EmptyText), sent')
    | (inl _, sent') => (inr EmptyText, sent')
    end.

(** ** The two tallies (server.js:284-357) *)

(** [set.add(x)] on a [Set] kept in insertion order. *)
Definition set_add (x : string) (s : list string) : list string :=
  if bool_decide (x ∈ s) then s else s ++ [x].

(** [t.key === "text"] *)
Definition tag (t : gmap string string) (key text : string) : bool :=
  bool_decide (t !! key = Some text).

(** [t.name] when it passes [if (!t.name) return]: present and not empty. *)
Definition truthy_name (t : gmap string string) : option string :=
  match t !! "name" with
  | Some text => if String.eqb text EmptyString then None else Some text
  | None => None
  end.

Module Names.
Record t : Type := {
  hospitals : list string;
  schools : list string;
  colleges : list string;
  railwayStations : list string;
  metroStations : list string
}.
End Names.

Definition infra_start : Names.t :=
  {| Names.hospitals := []; Names.schools := []; Names.colleges := [];
     Names.railwayStations := []; Names.metroStations := [] |}.

Definition is_railway (t : gmap string string) : bool :=
  tag t "railway" "station" && negb (tag t "station" "subway").

Definition is_metro (t : gmap string string) : bool :=
  tag t "station" "subway"
  || tag t "railway" "subway_entrance"
  || (tag t "public_transport" "station" && tag t "subway" "yes").

(** The callback of [infraData.elements.forEach]. *)
Definition infra_visit (infra : Names.t) (el : element) : Names.t :=
  let t := default ∅ (tags el) in
  match truthy_name t with
  | None => infra
  | Some name =>
      let add (test : bool) (s : list string) := if test then set_add name s else s in
      {| Names.hospitals := add (tag t "amenity" "hospital") (Names.hospitals infra);
         Names.schools := add (tag t "amenity" "school") (Names.schools infra);
         Names.colleges := add (tag t "amenity" "college") (Names.colleges infra);
         Names.railwayStations := add (is_railway t) (Names.railwayStations infra);
         Names.metroStations := add (is_metro t) (Names.metroStations infra) |}
  end.

Definition infra_sets (els : list element) : Names.t :=
  fold_left infra_visit els infra_start.

Record infrastructure_t : Type := {
  hospitals : nat;
  schools : nat;
  colleges : nat;
  railwayStations : nat;
  metroStations : nat;
  names : Names.t
}.

Definition infrastructure_of (els : list element) : infrastructure_t :=
  let infra := infra_sets els in
  {| hospitals := length (Names.hospitals infra);
     schools := length (Names.schools infra);
     colleges := length (Names.colleges infra);
     railwayStations := length (Names.railwayStations infra);
     metroStations := length (Names.metroStations infra);
     names := infra |}.

Module Water.
Record counted : Type := { count : nat; names : list string }.
Record t : Type := { rivers : counted; otherWaterBodies : counted }.
End Water.

(** The callback of [waterData.elements.forEach] on [(rivers, others)]. *)
Definition water_visit (sets : list string * list string) (el : element)
    : list string * list string :=
  let t := default ∅ (tags el) in
  match truthy_name t with
  | None => sets
  | Some name =>
      if tag t "waterway" "river" then (set_add name sets.1, sets.2)
      else (sets.1, set_add name sets.2)
  end.

Definition water_sets (els : list element) : list string * list string :=
  fold_left water_visit els ([], []).

Definition waterBodies_of (els : list element) : Water.t :=
  let '(rivers, others) := water_sets els in
  {| Water.rivers := {| Water.count := length rivers; Water.names := rivers |};
     Water.otherWaterBodies := {| Water.count := length others; Water.names := others |} |}.

(** ** The handler of [GET /api] (server.js:67-390) *)

(** A weather or encyclopedia document; the handler passes it on unread. *)
Definition json : Type := string.

Module Place.
(** A Nominatim result. *)
Record t : Type := { lat : string; lon : string; display_name : string }.
End Place.

Module CityInfo.
Record t : Type := {
  name : string;
  displayName : string;
  lat : number;
  lon : number
}.
End CityInfo.

Module Report.
Record t : Type := {
  city : CityInfo.t;
  population : number;
  area : number;
  weather : json;
  airQuality : air_quality;
  infrastructure : infrastructure_t;
  waterBodies : Water.t;
  wikipedia : json
}.
End Report.

Inductive body : Type :=
  | ErrorBody (error : string)
  | ReportBody (r : Report.t).

Record response : Type := { status : nat; sent_body : body }.

(** [req.query.city] *)
Record request : Type := { query_city : option string }.

(** What the services answer during one request, and whether the
    detached air-quality task got to its assignment before [res.json]. *)
Record world : Type := {
  nominatim : reply (list Place.t);
  forecast : reply json;
  csv : list stream_event;
  waqi : reply waqi_document;
  air_quality_api : reply hourly_document;
  overpass : overpass_query -> string -> reply overpass_data;
  wiki : reply json;
  aqi_assigned : bool
}.

Section Handler.

Variable StringToNumber : string -> number.

(** [await getLocationStats(...)]. The promise is never left pending
    (see [getLocationStats_settles]). *)
Definition await_lookup (searchValue : string) (events : list stream_event)
    : M location_stats :=
  _ ← send (DatasetFile searchValue);
  match getLocationStats StringToNumber searchValue events with
  | Resolved stats => mret stats
  | Rejected err => throw err
  | Pending => throw EmptyString
  end.

(** The body of the handler's [try]. *)
Definition try_block (w : world) (req : request) : M response :=
  match or_null (query_city req) with
  | None => mret {| status := 400; sent_body := ErrorBody "City is required" |}
  | Some cityName =>
      places ← safeFetch (Nominatim cityName) (nominatim w);
      match places with
      | [] => throw "City not found"
      | city :: _ =>
          let lat := StringToNumber (Place.lat city) in
          let lon := StringToNumber (Place.lon city) in
          weather ← safeFetch (OpenMeteoForecast lat lon) (forecast w);
          locationStats ←
            await_lookup (trim (before_comma (Place.display_name city))) (csv w);
          airQualityString ←
            detached (getAQISection lat lon (waqi w) (air_quality_api w))
                     (aqi_assigned w);
          infraData ←
            fetchOverpass (overpass w (infraQuery lat lon)) (infraQuery lat lon);
          let infrastructure := infrastructure_of (elements infraData) in
          waterData ←
            fetchOverpass (overpass w (waterQuery lat lon)) (waterQuery lat lon);
          let waterBodies := waterBodies_of (elements waterData) in
          wikipedia ← safeFetch (WikipediaSummary cityName) (wiki w);
          mret {| status := 200;
                  sent_body := ReportBody
                    {| Report.city :=
                         {| CityInfo.name := cityName;
                            CityInfo.displayName := Place.display_name city;
                            CityInfo.lat := lat;
                            CityInfo.lon := lon |};
                       Report.population := population locationStats;
                       Report.area := area locationStats;
                       Report.weather := weather;
                       Report.airQuality := airQualityString;
                       Report.infrastructure := infrastructure;
                       Report.waterBodies := waterBodies;
                       Report.wikipedia := wikipedia |} |}
      end
  end.

Definition handler (w : world) (req : request) : M response :=
  try_catch (try_block w req)
    (fun err => mret {| status := 500; sent_body := ErrorBody err |}).

End Handler.

(** ** Sample data for the worked examples *)

Definition digit_value (c : ascii) : option Z :=
  let n := nat_of_ascii c in
  if Nat.leb 48 n && Nat.leb n 57 then Some (Z.of_nat (n - 48)) else None.

Fixpoint digits_value (acc : Z) (s : string) : option Z :=
  match s with
  | EmptyString => Some acc
  | String c rest =>
      match digit_value c with
      | Some d => digits_value (10 * acc + d) rest
      | None => None
      end
  end.

(** A conversion that agrees with the built-in one on trimmed runs of
    decimal digits and on the empty string, and gives NaN elsewhere. *)
Definition decimal_to_number (s : string) : number :=
  match digits_value 0 (trim s) with
  | Some z => Finite (inject_Z z)
  | None => NaN
  end.

Definition mk_row (city district state pop ar : string) : row :=
  {| City := Some city; District := Some district; State := Some state;
     Population := Some pop; Area := Some ar |}.

Definition point (kvs : list (string * string)) : element :=
  {| tags := Some (list_to_map kvs) |}.

Definition mumbai_row : row :=
  mk_row "Mumbai" "Mumbai City" "Maharashtra" "12442373" "603".

Definition new_delhi_row : row := mk_row "New Delhi" " DELHI " "Delhi" EmptyString "n/a".

Definition delhi_row : row := mk_row "Delhi" "Delhi" "Delhi" "11034555" "1484".

Definition sample_file : list row := [mumbai_row; new_delhi_row; delhi_row].

Definition sample_place : Place.t :=
  {| Place.lat := "28"; Place.lon := "77"; Place.display_name := "Delhi, India" |}.

Definition sample_waqi : waqi_document :=
  {| waqi_status := Some "ok";
     waqi_body := Some {| waqi_aqi := Num (lit 152);
                          iaqi := Some {[ "pm25" := Num (lit 152) ]};
                          dominentpol := Some "pm25";
                          time_s := Some "2024-01-01 10:00:00" |} |}.

Definition sample_hourly : hourly_document :=
  {| hourly := Some {| hourly_time := Some ["2024-01-01T00:00"; "2024-01-01T01:00"];
                       pm2_5 := Some [Num (lit 40); Null] |} |}.

Definition sample_infra : overpass_data :=
  {| elements :=
       [ point [("amenity", "hospital"); ("name", "AIIMS")];
         point [("amenity", "hospital"); ("name", "AIIMS")];
         point [("amenity", "school")];
         point [("railway", "station"); ("name", "New Delhi")];
         point [("railway", "station"); ("station", "subway");
                ("name", "Rajiv Chowk")] ] |}.

Definition sample_water : overpass_data :=
  {| elements :=
       [ point [("waterway", "river"); ("name", "Yamuna")];
         point [("natural", "water"); ("name", "Sanjay Lake")];
         point [("waterway", "drain")] ] |}.

(** Every service answers well; the first Overpass mirror is down.
    [assigned] is left open: the arrival order of the replies. *)
Definition sample_world (assigned : bool) : world :=
  {| nominatim := Answer 200 "ok" (inr [sample_place]);
     forecast := Answer 200 "ok" (inr "forecast document");
     csv := rows_of_file sample_file;
     waqi := Answer 200 "ok" (inr sample_waqi);
     air_quality_api := Answer 200 "ok" (inr sample_hourly);
     overpass := fun q url =>
       if String.eqb url "https://overpass-api.de/api/interpreter"
       then Answer 504 "Gateway Timeout" (inl "Unexpected token")
       else match q with
            | infraQuery _ _ => Answer 200 "ok" (inr sample_infra)
            | waterQuery _ _ => Answer 200 "ok" (inr sample_water)
            end;
     wiki := Answer 200 "ok" (inr "summary document");
     aqi_assigned := assigned |}.

Definition sample_request : request := {| query_city := Some "Delhi" |}.

(** What [getAQISection] returns in the sample world. *)
Definition sample_section : aqi_section :=
  {| currentAQI :=
       {| aqi := Num (lit 152);
          category := "Unhealthy";
          pollutants := [("pm25", Num (lit 152)); ("pm10", Null); ("no2", Null);
                         ("so2", Null); ("o3", Null); ("co", Null)];
          dominentPollutant := Some "pm25";
          time := Some "2024-01-01 10:00:00" |};
     history :=
       [ {| History.timestamp := Some "2024-01-01T00:00";
            History.pm25 := Num (lit 40);
            History.aqi := "Good" |};
         {| History.timestamp := Some "2024-01-01T01:00";
            History.pm25 := Null;
            History.aqi := "No data" |} ] |}.

(** The report of the sample world, up to its [airQuality] field. *)
Definition sample_report (airQuality : air_quality) : Report.t :=
  {| Report.city := {| CityInfo.name := "Delhi";
                       CityInfo.displayName := "Delhi, India";
                       CityInfo.lat := lit 28;
                       CityInfo.lon := lit 77 |};
     Report.population := Finite 0;
     Report.area := Finite 0;
     Report.weather := "forecast document";
     Report.airQuality := airQuality;
     Report.infrastructure :=
       {| hospitals := 1; schools := 0; colleges := 0;
          railwayStations := 1; metroStations := 1;
          names := {| Names.hospitals := ["AIIMS"];
                      Names.schools := [];
                      Names.colleges := [];
                      Names.railwayStations := ["New Delhi"];
                      Names.metroStations := ["Rajiv Chowk"] |} |};
     Report.waterBodies :=
       {| Water.rivers := {| Water.count := 1; Water.names := ["Yamuna"] |};
          Water.otherWaterBodies :=
            {| Water.count := 1; Water.names := ["Sanjay Lake"] |} |};
     Report.wikipedia := "summary document" |}.

Definition sample_calls : list call :=
  [ Nominatim "Delhi";
    OpenMeteoForecast (lit 28) (lit 77);
    DatasetFile "Delhi";
    WaqiFeed (lit 28) (lit 77);
    OpenMeteoAirQuality (lit 28) (lit 77);
    OverpassPost "https://overpass-api.de/api/interpreter" (infraQuery (lit 28) (lit 77));
    OverpassPost "https://overpass.kumi.systems/api/interpreter" (infraQuery (lit 28) (lit 77));
    OverpassPost "https://overpass-api.de/api/interpreter" (waterQuery (lit 28) (lit 77));
    OverpassPost "https://overpass.kumi.systems/api/interpreter" (waterQuery (lit 28) (lit 77));
    WikipediaSummary "Delhi" ].

(** A world like the sample one, with the chosen geocoder, forecast,
    dataset, Overpass mirrors and encyclopedia. *)
Definition world_with (geo : reply (list Place.t)) (fc : reply json)
    (file : list row) (net : overpass_query -> string -> reply overpass_data)
    (wk : reply json) : world :=
  {| nominatim := geo;
     forecast := fc;
     csv := rows_of_file file;
     waqi := Answer 200 "ok" (inr sample_waqi);
     air_quality_api := Answer 200 "ok" (inr sample_hourly);
     overpass := net;
     wiki := wk;
     aqi_assigned := true |}.

Definition found : reply (list Place.t) := Answer 200 "ok" (inr [sample_place]).

Definition fine : reply json := Answer 200 "ok" (inr "document").

(** Every mirror is down. *)
Definition dead_net (q : overpass_query) (url : string) : reply overpass_data :=
  Unreachable "fetch failed".


(** Only the last mirror answers. *)
Definition last_mirror_net (q : overpass_query) (url : string)
    : reply overpass_data :=
  if String.eqb url "https://overpass.nchc.org.tw/api/interpreter"
  then match q with
       | infraQuery _ _ => Answer 200 "ok" (inr sample_infra)
       | waterQuery _ _ => Answer 200 "ok" (inr sample_water)
       end
  else Unreachable "fetch failed".

(** ** The words of the specification *)

(** A field of a row equals the query, both trimmed and lower-cased. *)
Definition field_equals (field : option string) (searchValue : string) : Prop :=
  exists raw, field = Some raw /\
              toLowerCase (trim raw) = toLowerCase (trim searchValue).

Definition row_matches (searchValue : string) (r : row) : Prop :=
  field_equals (City r) searchValue \/
  field_equals (District r) searchValue \/
  field_equals (State r) searchValue.

(** City before District before State: which field a matching row is
    matched on, and the name reported for it. *)
Inductive priority (searchValue : string) (r : row) : string -> option string -> Prop :=
  | on_city :
      field_equals (City r) searchValue ->
      priority searchValue r "city" (City r)
  | on_district :
      ~ field_equals (City r) searchValue ->
      field_equals (District r) searchValue ->
      priority searchValue r "district" (District r)
  | on_state :
      ~ field_equals (City r) searchValue ->
      ~ field_equals (District r) searchValue ->
      field_equals (State r) searchValue ->
      priority searchValue r "state" (State r).

(** The five infrastructure categories and their tag rules (spec 4.6). *)
Inductive infra_category : Type :=
  | Hospitals | Schools | Colleges | RailwayStations | MetroStations.

Definition matches_category (c : infra_category) (t : gmap string string) : Prop :=
  match c with
  | Hospitals => t !! "amenity" = Some "hospital"
  | Schools => t !! "amenity" = Some "school"
  | Colleges => t !! "amenity" = Some "college"
  | RailwayStations =>
      t !! "railway" = Some "station" /\ t !! "station" <> Some "subway"
  | MetroStations =>
      t !! "station" = Some "subway" \/
      t !! "railway" = Some "subway_entrance" \/
      (t !! "public_transport" = Some "station" /\ t !! "subway" = Some "yes")
  end.

Definition names_in (c : infra_category) (infra : Names.t) : list string :=
  match c with
  | Hospitals => Names.hospitals infra
  | Schools => Names.schools infra
  | Colleges => Names.colleges infra
  | RailwayStations => Names.railwayStations infra
  | MetroStations => Names.metroStations infra
  end.

Definition count_in (c : infra_category) (i : infrastructure_t) : nat :=
  match c with
  | Hospitals => hospitals i
  | Schools => schools i
  | Colleges => colleges i
  | RailwayStations => railwayStations i
  | MetroStations => metroStations i
  end.

(** The tags of a point; a point without [tags] has none. *)
Definition tags_of (el : element) : gmap string string := default ∅ (tags el).

(** A lookup that has neither matched nor failed yet. *)
Definition scanning (st : lookup_state) : Prop :=
  resolved st = false /\ destroyed st = false /\ promise st = Pending.

(** A lookup whose flag or whose stream says it is over has settled its
    promise. *)
Definition settles (st : lookup_state) : Prop :=
  resolved st = true \/ destroyed st = true -> promise st <> Pending.

(** The name list of a category holds every raw name string carried by a
    point that matches the category. *)
Definition lists_every_raw_name (els : list element) : Prop :=
  forall (c : infra_category) (n : string),
    (exists el, el ∈ els /\ tags_of el !! "name" = Some n /\
                matches_category c (tags_of el)) ->
    n ∈ names_in c (names (infrastructure_of els)).

(** A point carrying a name tag is put into railway stations, and into
    metro stations, exactly when its tags satisfy the rule. *)
Definition classified_by_rule (el : element) : Prop :=
  forall n : string,
    tags_of el !! "name" = Some n ->
    (n ∈ Names.railwayStations (infra_visit infra_start el)
       <-> matches_category RailwayStations (tags_of el)) /\
    (n ∈ Names.metroStations (infra_visit infra_start el)
       <-> matches_category MetroStations (tags_of el)).

(** The current-AQI call throws (the fetch or [res.json()] rejects) or
    the service answers without an ok status or without data. *)
Definition current_call_failed (r : reply waqi_document) : Prop :=
  match r with
  | Unreachable _ => True
  | Answer _ _ (inl _) => True
  | Answer _ _ (inr data) => waqi_status data <> Some "ok" \/ waqi_body data = None
  end.

(** The history call throws. *)
Definition history_call_failed (r : reply hourly_document) : Prop :=
  match r with
  | Unreachable _ => True
  | Answer _ _ (inl _) => True
  | Answer _ _ (inr _) => False
  end.

(** A Population or Area field that is missing, empty, or not the text
    of a number. *)
Definition not_numeric (StringToNumber : string -> number) (field : option string)
    : Prop :=
  field = None \/ field = Some EmptyString \/
  exists text, field = Some text /\ StringToNumber text = NaN.

(** ** Further vocabulary: how a run of the handler goes *)

(** What [safeFetch] makes of a reply: the message it throws, or the
    parsed body it returns. *)
Definition fetch_outcome {A : Type} (r : reply A) : string + A :=
  match r with
  | Unreachable message => inl message
  | Answer status text parsed =>
      if ok status then parsed
      else inl ("Fetch failed (" ++ pretty status ++ "): " ++ text)%string
  end.

(** The POSTs of one query to a list of endpoints. *)
Definition posts_to (query : overpass_query) (urls : list string) : list call :=
  (fun url => OverpassPost url query) <$> urls.

(** Among [OVERPASS_ENDPOINTS], the mirrors in [tried] fail and the next
    one, [url], answers with [data]. *)
Definition answered_by (net : string -> reply overpass_data)
    (tried : list string) (url : string) (data : overpass_data) : Prop :=
  exists rest,
    OVERPASS_ENDPOINTS = tried ++ url :: rest /\
    (forall u, u ∈ tried -> succeeds (net u) = None) /\
    succeeds (net url) = Some data.

Definition all_mirrors_fail (net : string -> reply overpass_data) : Prop :=
  forall u, u ∈ OVERPASS_ENDPOINTS -> succeeds (net u) = None.

(** The name the dataset is searched for: [display_name.split(",")[0].trim()]. *)
Definition dataset_key (city : Place.t) : string :=
  trim (before_comma (Place.display_name city)).

(** A computation sends at most [k] requests, and only adds to the list
    of those sent before. *)
Definition sends_at_most {A : Type} (k : nat) (m : M A) : Prop :=
  forall sent res sent',
    m sent = (res, sent') ->
    exists extra, sent' = sent ++ extra /\ length extra <= k.

(** The request names a city and the geocoder answers with [city] first. *)
Definition geocoded (w : world) (req : request) (cityName : string)
    (city : Place.t) : Prop :=
  query_city req = Some cityName /\ cityName <> EmptyString /\
  exists others, fetch_outcome (nominatim w) = inr (city :: others).


(** The requests every run sends first, and those of the air-quality task. *)
Definition opening_calls (StringToNumber : string -> number)
    (cityName : string) (city : Place.t) : list call :=
  [ Nominatim cityName;
    OpenMeteoForecast (StringToNumber (Place.lat city))
                      (StringToNumber (Place.lon city));
    DatasetFile (dataset_key city) ].

Definition aqi_calls (StringToNumber : string -> number) (city : Place.t)
    : list call :=
  [ WaqiFeed (StringToNumber (Place.lat city)) (StringToNumber (Place.lon city));
    OpenMeteoAirQuality (StringToNumber (Place.lat city))
                        (StringToNumber (Place.lon city)) ].



Definition failure (message : string) : response :=
  {| status := 500; sent_body := ErrorBody message |}.

(** What [getCurrentAQI] returns for a reply. *)
Definition current_reading (r : reply waqi_document) : aqi_reading :=
  match r with
  | Answer _ _ (inr data) =>
      if same (waqi_status data) "ok"
      then match waqi_body data with
           | Some d => reading_of d
           | None => no_data
           end
      else no_data
  | _ => no_data
  end.

(** The point [getAQIHistory] makes of the sample at index [idx]. *)
Definition history_point (times : list string) (idx : nat) (sample : value)
    : History.point :=
  {| History.timestamp := times !! idx;
     History.pm25 := sample;
     History.aqi := categorizeAQI sample |}.

(** What [getAQIHistory] returns for a reply. *)
Definition history_points (r : reply hourly_document) : list History.point :=
  match r with
  | Answer _ _ (inr data) =>
      match hourly data with
      | Some h =>
          match pm2_5 h, hourly_time h with
          | Some samples, Some times => imap (history_point times) samples
          | _, _ => []
          end
      | None => []
      end
  | _ => []
  end.

(** What the air-quality task computes in a world. *)
Definition section_of (w : world) : aqi_section :=
  {| currentAQI := current_reading (waqi w);
     history := history_points (air_quality_api w) |}.

(** What the handler reads from [airQualityString] in a world. *)
Definition airQuality_read (w : world) : air_quality :=
  if aqi_assigned w then Section_ (section_of w) else EmptyText.

(** The test the visit makes for a category. *)
Definition category_test (c : infra_category) (t : gmap string string) : bool :=
  match c with
  | Hospitals => tag t "amenity" "hospital"
  | Schools => tag t "amenity" "school"
  | Colleges => tag t "amenity" "college"
  | RailwayStations => is_railway t
  | MetroStations => is_metro t
  end.

(** The names of the points of a category, one per point, in the order
    of the response, repetitions kept. *)
Definition matching_names (c : infra_category) (els : list element) : list string :=
  omap (fun el => match truthy_name (tags_of el) with
                  | Some n => if category_test c (tags_of el) then Some n else None
                  | None => None
                  end) els.

(** A list without its repetitions, each member where it first occurs. *)
Definition first_occurrences (l : list string) : list string :=
  reverse (remove_dups (reverse l)).

(** ** The dashboard that calls the endpoint (frontend/src/App.jsx) *)

(** [ToNumber] on what an AQI or a weather field holds: [null] is 0 and
    [undefined] is NaN. *)
Definition ToNumber (v : value) : number :=
  match v with
  | Null => Finite 0
  | Undefined => NaN
  | Num n => n
  end.

(** [a < b] on numbers: false as soon as one side is NaN. *)
Definition num_ltb (a b : number) : bool :=
  match a, b with
  | NaN, _ => false
  | _, NaN => false
  | Infinity, _ => false
  | _, NegInfinity => false
  | NegInfinity, _ => true
  | _, Infinity => true
  | Finite x, Finite y => negb (Qle_bool y x)
  end.

(** [v <= k], [v >= k], [v > k] and [v === k] against a literal [k]. *)
Definition js_le (v : value) (k : Z) : bool := num_leb (ToNumber v) (lit k).

Definition js_ge (v : value) (k : Z) : bool := num_leb (lit k) (ToNumber v).

Definition js_gt (v : value) (k : Z) : bool := num_ltb (lit k) (ToNumber v).

Definition js_is (v : value) (k : Z) : bool :=
  match v with
  | Num (Finite q) => Qeq_bool q (inject_Z k)
  | _ => false
  end.

(** Truthiness of such a field. *)
Definition truthy (v : value) : bool :=
  match v with
  | Num n => num_truthy n
  | _ => false
  end.

(** [getWeatherIcon] (App.jsx:323-332) *)
Definition getWeatherIcon (weathercode isDay : value) : string :=
  if js_is weathercode 0 then (if truthy isDay then "fa-sun" else "fa-moon")
  else if js_is weathercode 1 || js_is weathercode 2 || js_is weathercode 3
  then "fa-cloud"
  else if js_ge weathercode 45 && js_le weathercode 48 then "fa-smog"
  else if js_ge weathercode 51 && js_le weathercode 67 then "fa-cloud-rain"
  else if js_ge weathercode 71 && js_le weathercode 77 then "fa-snowflake"
  else if js_ge weathercode 80 && js_le weathercode 82 then "fa-cloud-showers-heavy"
  else if js_ge weathercode 95 && js_le weathercode 99 then "fa-bolt"
  else "fa-cloud".

(** [getAQIColor], [getAQIBackground], [getAQIBorderColor] (App.jsx:334-359) *)
Definition getAQIColor (aqi : value) : string :=
  if js_le aqi 50 then "text-emerald-500"
  else if js_le aqi 100 then "text-yellow-500"
  else if js_le aqi 150 then "text-orange-500"
  else if js_le aqi 200 then "text-rose-500"
  else if js_le aqi 300 then "text-purple-500"
  else "text-red-700".

Definition getAQIBackground (aqi : value) : string :=
  if js_le aqi 50 then "bg-emerald-100 dark:bg-emerald-900/20"
  else if js_le aqi 100 then "bg-yellow-100 dark:bg-yellow-900/20"
  else if js_le aqi 150 then "bg-orange-100 dark:bg-orange-900/20"
  else if js_le aqi 200 then "bg-rose-100 dark:bg-rose-900/20"
  else if js_le aqi 300 then "bg-purple-100 dark:bg-purple-900/20"
  else "bg-red-100 dark:bg-red-900/20".

Definition getAQIBorderColor (aqi : value) : string :=
  if js_le aqi 50 then "border-emerald-500"
  else if js_le aqi 100 then "border-yellow-500"
  else if js_le aqi 150 then "border-orange-500"
  else if js_le aqi 200 then "border-rose-500"
  else if js_le aqi 300 then "border-purple-500"
  else "border-red-700".

(** The three classes the dashboard uses for a category of the backend;
    it has none for "No data". *)
Definition palette (category : string) : option (string * string * string) :=
  if String.eqb category "Good"
  then Some ("text-emerald-500", "bg-emerald-100 dark:bg-emerald-900/20",
             "border-emerald-500")
  else if String.eqb category "Moderate"
  then Some ("text-yellow-500", "bg-yellow-100 dark:bg-yellow-900/20",
             "border-yellow-500")
  else if String.eqb category "Unhealthy for Sensitive Groups"
  then Some ("text-orange-500", "bg-orange-100 dark:bg-orange-900/20",
             "border-orange-500")
  else if String.eqb category "Unhealthy"
  then Some ("text-rose-500", "bg-rose-100 dark:bg-rose-900/20",
             "border-rose-500")
  else if String.eqb category "Very Unhealthy"
  then Some ("text-purple-500", "bg-purple-100 dark:bg-purple-900/20",
             "border-purple-500")
  else if String.eqb category "Hazardous"
  then Some ("text-red-700", "bg-red-100 dark:bg-red-900/20", "border-red-700")
  else None.

Definition aqi_classes (aqi : value) : string * string * string :=
  (getAQIColor aqi, getAQIBackground aqi, getAQIBorderColor aqi).

(** The colours of one bar of the PM2.5 chart (App.jsx:507-518). *)
Definition barBackgroundColor (darkMode : bool) (pm25 : value) : string :=
  if js_gt pm25 150 then (if darkMode then "rgba(239, 68, 68, 0.8)" else "#ef4444")
  else if js_gt pm25 100
  then (if darkMode then "rgba(249, 115, 22, 0.8)" else "#f97316")
  else if js_gt pm25 50
  then (if darkMode then "rgba(234, 179, 8, 0.8)" else "#eab308")
  else (if darkMode then "rgba(16, 185, 129, 0.8)" else "#10b981").

Definition barBorderColor (pm25 : value) : string :=
  if js_gt pm25 150 then "#dc2626"
  else if js_gt pm25 100 then "#ea580c"
  else if js_gt pm25 50 then "#ca8a04"
  else "#059669".

(** The dataset of [aqiChartData] (App.jsx:500-524), without its labels,
    which are locale-formatted dates. *)
Record chart_dataset : Type := {
  data : list value;
  backgroundColor : list string;
  borderColor : list string
}.

(** [x.history] throws when [x.airQuality] is the empty string: its
    [history] is [undefined], which has no [slice]. *)
Definition aqiChartData (darkMode : bool) (airQuality : air_quality)
    : string + chart_dataset :=
  match airQuality with
  | EmptyText => inl "Cannot read properties of undefined (reading 'slice')"
  | Section_ s =>
      let items := take 8 (history s) in
      inr {| data := History.pm25 <$> items;
             backgroundColor :=
               (fun item => barBackgroundColor darkMode (History.pm25 item))
                 <$> items;
             borderColor :=
               (fun item => barBorderColor (History.pm25 item)) <$> items |}
  end.

(** What the dashboard does: its state setters, the toast, the request
    to the endpoint, and a retry left with [setTimeout]. *)
Inductive ui_effect : Type :=
  | SetLoading (b : bool)
  | SetError (e : option string)
  | SetRetryCount (n : nat)
  | SetCityData (d : Report.t)
  | SetSearchCity (city : string)
  | ShowToast (message kind : string)
  | GetApi (city : string)
  | RetryAfter (milliseconds : nat) (city : string).

(** [handleSearch] (App.jsx:313-321), on the states [inputCity] and
    [searchCity]. *)
Definition handleSearch (inputCity searchCity : string) : list ui_effect :=
  let trimmedCity := trim inputCity in
  if negb (String.eqb trimmedCity EmptyString)
     && negb (String.eqb trimmedCity searchCity)
  then [SetSearchCity trimmedCity]
  else if String.eqb trimmedCity EmptyString
  then [ShowToast "Please enter a city name" "warning"]
  else [].

(** The error axios rejects with: [err.response] with its [status] and
    its [data.error], and [err.message]. *)
Record error_response : Type := {
  response_status : option nat;
  data_error : option string
}.

Record request_error : Type := {
  err_response : option error_response;
  err_message : option string
}.

(** The double-quote character, as a string. *)
Definition dquote : string := String "034"%char EmptyString.

(** What [axios.get] comes back with: a response and its [data], or an
    error. *)
Inductive axios_result : Type :=
  | Replied (response_data : option Report.t)
  | Failed (err : request_error).

(** The values that meet in [!err.response?.status === 404]. *)
Inductive js_value : Type :=
  | JSUndefined
  | JSBoolean (b : bool)
  | JSNumber (n : nat).

Definition strict_equal (a b : js_value) : bool :=
  match a, b with
  | JSUndefined, JSUndefined => true
  | JSBoolean x, JSBoolean y => Bool.eqb x y
  | JSNumber x, JSNumber y => Nat.eqb x y
  | _, _ => false
  end.

(** [!a] *)
Definition js_not (a : js_value) : js_value :=
  JSBoolean (match a with
             | JSUndefined => true
             | JSBoolean b => negb b
             | JSNumber n => Nat.eqb n 0
             end).

(** [err.response?.status] *)
Definition status_of (err : request_error) : js_value :=
  match err_response err with
  | Some r => match response_status r with
              | Some n => JSNumber n
              | None => JSUndefined
              end
  | None => JSUndefined
  end.

Definition maxRetries : nat := 3.

(** [err.response?.data?.error || err.message || 'Failed to fetch city data'] *)
Definition errorMessage (err : request_error) : string :=
  match or_null (err_response err ≫= data_error) with
  | Some text => text
  | None => match or_null (err_message err) with
            | Some text => text
            | None => "Failed to fetch city data"
            end
  end.

(** The [catch] block of [fetchCityData] (App.jsx:279-303). *)
Definition on_catch (city : string) (retryCount : nat) (err : request_error)
    : list ui_effect :=
  if Nat.ltb retryCount maxRetries
     && strict_equal (js_not (status_of err)) (JSNumber 404)
  then
    let nextRetry := retryCount + 1 in
    [ SetRetryCount nextRetry;
      ShowToast ("Retrying... (" ++ pretty nextRetry ++ "/" ++ pretty maxRetries
                 ++ ")")%string "warning";
      RetryAfter (2 ^ nextRetry * 1000) city ]
  else
    [ SetError (Some (errorMessage err));
      ShowToast (errorMessage err) "error" ]
    ++ (if strict_equal (status_of err) (JSNumber 404)
        then [ShowToast ("City " ++ dquote ++ city ++ dquote
                         ++ " not found. Showing sample data for Delhi instead.")%string
                        "warning"]
        else []).

(** [fetchCityData] (App.jsx:258-307), with the state [retryCount] its
    closure sees and what the request comes back with. *)
Definition fetchCityData (city : string) (isRetry : bool) (retryCount : nat)
    (result : axios_result) : list ui_effect :=
  (if isRetry then [] else [SetLoading true; SetError None; SetRetryCount 0])
  ++ [GetApi city]
  ++ match result with
     | Replied (Some d) =>
         [ SetCityData d; SetError None; SetRetryCount 0;
           ShowToast ("Successfully loaded data for " ++ city)%string "success" ]
     | Replied None =>
         on_catch city retryCount
           {| err_response := None;
              err_message := Some "No data received from server" |}
     | Failed err => on_catch city retryCount err
     end
  ++ [SetLoading false].

(** The bar colours the chart uses for a category of the backend. *)
Definition bar_border_for (category : string) : string :=
  if String.eqb category "Good" then "#059669"
  else if String.eqb category "Moderate" then "#ca8a04"
  else if String.eqb category "Unhealthy for Sensitive Groups" then "#ea580c"
  else "#dc2626".

Definition bar_background_for (darkMode : bool) (category : string) : string :=
  if String.eqb category "Good"
  then (if darkMode then "rgba(16, 185, 129, 0.8)" else "#10b981")
  else if String.eqb category "Moderate"
  then (if darkMode then "rgba(234, 179, 8, 0.8)" else "#eab308")
  else if String.eqb category "Unhealthy for Sensitive Groups"
  then (if darkMode then "rgba(249, 115, 22, 0.8)" else "#f97316")
  else (if darkMode then "rgba(239, 68, 68, 0.8)" else "#ef4444").

(** * Proofs *)

Section Numbers.

Lemma num_leb_le a b : num_leb a b = true <-> num_le a b.
Proof.
  split.
  - destruct a, b; simpl; intros H; try discriminate;
      try (constructor; congruence).
    constructor. now apply Qle_bool_iff.
  - intros H. destruct H as [b Hb | x y Hxy | a Ha].
    + destruct b; simpl; congruence.
    + simpl. now apply Qle_bool_iff.
    + destruct a; simpl; congruence.
Qed.

Lemma num_leb_nle a b : num_leb a b = false <-> ~ num_le a b.
Proof.
  rewrite <- num_leb_le. destruct (num_leb a b); split; intros; congruence.
Qed.

Lemma num_le_trans a b c : num_le a b -> num_le b c -> num_le a c.
Proof.
  intros Hab Hbc. destruct Hab; inversion Hbc; subst;
    try (constructor; congruence); try congruence.
  constructor. eapply Qle_trans; eassumption.
Qed.

Lemma lit_le (x y : Z) : (x <= y)%Z -> num_le (lit x) (lit y).
Proof. intros H. constructor. now rewrite <- Zle_Qle. Qed.

End Numbers.

(** ** [categorizeAQI] *)

Section Categories.

Lemma thresholds_chain n :
  (num_le n (lit 50) -> num_le n (lit 100)) /\
  (num_le n (lit 100) -> num_le n (lit 150)) /\
  (num_le n (lit 150) -> num_le n (lit 200)) /\
  (num_le n (lit 200) -> num_le n (lit 300)).
Proof.
  repeat split; intros H; eapply num_le_trans; try exact H;
    apply lit_le; lia.
Qed.

Ltac split_thresholds :=
  repeat match goal with
    | |- context [if num_leb ?x ?k then _ else _] =>
        let E := fresh "E" in
        destruct (num_leb x k) eqn:E;
        [apply num_leb_le in E | apply num_leb_nle in E]
    end.

Lemma categorizeAQI_bands n :
  (categorizeAQI (Num n) = "Good" <-> num_le n (lit 50)) /\
  (categorizeAQI (Num n) = "Moderate" <->
     ~ num_le n (lit 50) /\ num_le n (lit 100)) /\
  (categorizeAQI (Num n) = "Unhealthy for Sensitive Groups" <->
     ~ num_le n (lit 100) /\ num_le n (lit 150)) /\
  (categorizeAQI (Num n) = "Unhealthy" <->
     ~ num_le n (lit 150) /\ num_le n (lit 200)) /\
  (categorizeAQI (Num n) = "Very Unhealthy" <->
     ~ num_le n (lit 200) /\ num_le n (lit 300)) /\
  (categorizeAQI (Num n) = "Hazardous" <-> ~ num_le n (lit 300)).
Proof.
  destruct (thresholds_chain n) as (C1 & C2 & C3 & C4).
  unfold categorizeAQI. split_thresholds;
    repeat split; intros; try discriminate; try reflexivity; tauto.
Qed.

Lemma categorizeAQI_monotone a b :
  num_le a b ->
  exists i j, severity (categorizeAQI (Num a)) = Some i /\
              severity (categorizeAQI (Num b)) = Some j /\ i <= j.
Proof.
  intros Hab.
  assert (T : forall k, num_le b (lit k) -> num_le a (lit k))
    by (intros k Hk; eapply num_le_trans; eassumption).
  pose proof (T 50%Z) as T50. pose proof (T 100%Z) as T100.
  pose proof (T 150%Z) as T150. pose proof (T 200%Z) as T200.
  pose proof (T 300%Z) as T300. clear T.
  destruct (thresholds_chain b) as (C1 & C2 & C3 & C4).
  unfold categorizeAQI. split_thresholds;
    first [ exfalso; tauto
          | do 2 eexists; split; [reflexivity | split; [reflexivity | lia]] ].
Qed.

End Categories.

(** C5. [categorizeAQI] depends on its argument alone; [null] (and
    [undefined]) give "No data"; a number gives "Good" exactly when it is
    at most 50, "Moderate" exactly when it is above 50 and at most 100,
    and so on through 150, 200 and 300, "Hazardous" exactly when it is not
    at most 300; and the severity of the category never decreases as the
    number grows. *)
Theorem categorizeAQI_thresholds :
  categorizeAQI Null = "No data" /\
  categorizeAQI Undefined = "No data" /\
  (forall n : number,
     (categorizeAQI (Num n) = "Good" <-> num_le n (lit 50)) /\
     (categorizeAQI (Num n) = "Moderate" <->
        ~ num_le n (lit 50) /\ num_le n (lit 100)) /\
     (categorizeAQI (Num n) = "Unhealthy for Sensitive Groups" <->
        ~ num_le n (lit 100) /\ num_le n (lit 150)) /\
     (categorizeAQI (Num n) = "Unhealthy" <->
        ~ num_le n (lit 150) /\ num_le n (lit 200)) /\
     (categorizeAQI (Num n) = "Very Unhealthy" <->
        ~ num_le n (lit 200) /\ num_le n (lit 300)) /\
     (categorizeAQI (Num n) = "Hazardous" <-> ~ num_le n (lit 300))) /\
  (forall a b : number,
     num_le a b ->
     exists i j, severity (categorizeAQI (Num a)) = Some i /\
                 severity (categorizeAQI (Num b)) = Some j /\ i <= j).
Proof.
  split; [reflexivity |]. split; [reflexivity |].
  split; [apply categorizeAQI_bands | apply categorizeAQI_monotone].
Qed.

Lemma categorizeAQI_thresholds_witness :
  num_le (lit 100) (Finite (1001 # 10)) /\
  categorizeAQI (Num (lit 100)) = "Moderate" /\
  categorizeAQI (Num (Finite (1001 # 10))) = "Unhealthy for Sensitive Groups" /\
  exists i j, severity (categorizeAQI (Num (lit 100))) = Some i /\
              severity (categorizeAQI (Num (Finite (1001 # 10)))) = Some j /\
              i <= j.
Proof.
  assert (H : num_le (lit 100) (Finite (1001 # 10))).
  { constructor. unfold Qle. simpl. lia. }
  split; [exact H |]. split; [reflexivity |]. split; [reflexivity |].
  exact (proj2 (proj2 (proj2 categorizeAQI_thresholds)) _ _ H).
Defined.

(** ** [getLocationStats] *)

Lemma same_normalised field searchValue :
  same (normalised field) (toLowerCase (trim searchValue)) = true
  <-> field_equals field searchValue.
Proof.
  unfold field_equals. destruct field as [raw|]; simpl.
  - rewrite String.eqb_eq. split.
    + intros H. exists raw. split; [reflexivity | exact H].
    + intros (raw' & E & H). congruence.
  - split; [discriminate |]. intros (raw & E & _). discriminate.
Qed.

Lemma same_normalised_false field searchValue :
  same (normalised field) (toLowerCase (trim searchValue)) = false
  <-> ~ field_equals field searchValue.
Proof.
  rewrite <- same_normalised.
  destruct (same _ _); split; intros; congruence.
Qed.

Lemma match_field_none searchValue r :
  match_field (toLowerCase (trim searchValue)) r = None
  <-> ~ row_matches searchValue r.
Proof.
  unfold match_field, row_matches.
  destruct (same (normalised (City r)) _) eqn:EC;
    [apply same_normalised in EC | apply same_normalised_false in EC];
    [split; [discriminate | tauto] |].
  destruct (same (normalised (District r)) _) eqn:ED;
    [apply same_normalised in ED | apply same_normalised_false in ED];
    [split; [discriminate | tauto] |].
  destruct (same (normalised (State r)) _) eqn:ES;
    [apply same_normalised in ES | apply same_normalised_false in ES];
    [split; [discriminate | tauto] |].
  split; [tauto | reflexivity].
Qed.

Lemma match_field_some searchValue r :
  row_matches searchValue r ->
  exists matched nm,
    match_field (toLowerCase (trim searchValue)) r = Some (matched, nm) /\
    priority searchValue r matched nm.
Proof.
  intros Hm. unfold match_field.
  destruct (same (normalised (City r)) _) eqn:EC;
    [apply same_normalised in EC | apply same_normalised_false in EC].
  { do 2 eexists. split; [reflexivity | now constructor]. }
  destruct (same (normalised (District r)) _) eqn:ED;
    [apply same_normalised in ED | apply same_normalised_false in ED].
  { do 2 eexists. split; [reflexivity | now constructor]. }
  destruct (same (normalised (State r)) _) eqn:ES;
    [apply same_normalised in ES | apply same_normalised_false in ES].
  { do 2 eexists. split; [reflexivity | now constructor]. }
  exfalso. unfold row_matches in Hm. tauto.
Qed.

Section Dataset.

Variable StringToNumber : string -> number.

Local Abbreviation on_data := (on_data StringToNumber).
Local Abbreviation deliver := (deliver StringToNumber).
Local Abbreviation scan := (scan StringToNumber).
Local Abbreviation getLocationStats := (getLocationStats StringToNumber).
Local Abbreviation stats_of := (stats_of StringToNumber).

(** The guard [if (resolved) return]: once a row has matched, the
    handler leaves every later row alone, destroyed stream or not. *)
Lemma on_data_after_match query r st :
  resolved st = true -> on_data query r st = st.
Proof. intros H. unfold on_data. now rewrite H. Qed.

Lemma deliver_skips searchValue (before : list row) rest st :
  scanning st ->
  (forall r, r ∈ before -> ~ row_matches searchValue r) ->
  exists st',
    deliver (toLowerCase (trim searchValue)) (rows_of_file before ++ rest) st
      = deliver (toLowerCase (trim searchValue)) rest st' /\
    scanning st' /\ examined st' = examined st ++ before.
Proof.
  revert st. induction before as [|r before IH]; intros st Hst Hno.
  - exists st. simpl. rewrite app_nil_r. auto.
  - destruct Hst as (Hr & Hd & Hp).
    assert (Hrow : match_field (toLowerCase (trim searchValue)) r = None).
    { apply match_field_none. apply Hno. left. }
    destruct (IH (look_at r st)) as (st' & Hrun & Hst' & Hex).
    + repeat split; simpl; assumption.
    + intros r' Hin. apply Hno. now right.
    + exists st'. split; [| split; [exact Hst' |]].
      * simpl. rewrite Hd. unfold on_data. rewrite Hr, Hrow. exact Hrun.
      * rewrite Hex. simpl. now rewrite <- app_assoc.
Qed.

Lemma deliver_match query r matched nm rest st :
  scanning st ->
  match_field query r = Some (matched, nm) ->
  let st' := deliver query (Data r :: rest) st in
  promise st' = Resolved (stats_of r matched nm) /\
  destroyed st' = true /\ resolved st' = true /\
  examined st' = examined st ++ [r].
Proof.
  intros (Hr & Hd & Hp) Hrow. simpl. rewrite Hd.
  unfold on_data. rewrite Hr, Hrow.
  unfold resolve. simpl. rewrite Hp.
  destruct rest as [|[]]; simpl; auto.
Qed.

Lemma deliver_end query st :
  scanning st ->
  deliver query [] st =
    {| resolved := false; destroyed := false;
       promise := Rejected no_match_message; examined := examined st |}.
Proof.
  intros (Hr & Hd & Hp). simpl. rewrite Hd. unfold on_end. rewrite Hr.
  unfold reject. rewrite Hp, Hr, Hd. reflexivity.
Qed.

Lemma scanning_start : scanning lookup_start.
Proof. repeat split. Qed.

Lemma scan_match searchValue (before : list row) r rest :
  (forall r', r' ∈ before -> ~ row_matches searchValue r') ->
  row_matches searchValue r ->
  exists matched nm,
    priority searchValue r matched nm /\
    let st := scan searchValue (rows_of_file before ++ Data r :: rest) in
    promise st = Resolved (stats_of r matched nm) /\
    destroyed st = true /\ examined st = before ++ [r].
Proof.
  intros Hno Hm.
  destruct (match_field_some _ _ Hm) as (matched & nm & Hrow & Hprio).
  exists matched, nm. split; [exact Hprio |].
  destruct (deliver_skips searchValue before (Data r :: rest) lookup_start
              scanning_start Hno) as (st' & Hrun & Hst' & Hex).
  unfold scan. rewrite Hrun.
  destruct (deliver_match _ r matched nm rest st' Hst' Hrow) as (P & D & _ & X).
  cbv zeta. rewrite P, D, X, Hex. auto.
Qed.

Lemma scan_no_match searchValue (file : list row) :
  (forall r, r ∈ file -> ~ row_matches searchValue r) ->
  let st := scan searchValue (rows_of_file file) in
  promise st = Rejected no_match_message /\ examined st = file /\
  destroyed st = false.
Proof.
  intros Hno.
  destruct (deliver_skips searchValue file [] lookup_start
              scanning_start Hno) as (st' & Hrun & Hst' & Hex).
  rewrite app_nil_r in Hrun. unfold scan. cbv zeta. rewrite Hrun.
  rewrite (deliver_end _ st' Hst'). simpl. auto.
Qed.

Lemma on_data_settles query r st : settles st -> settles (on_data query r st).
Proof.
  unfold on_data. intros J.
  destruct (resolved st) eqn:Hr; [exact J |].
  destruct (match_field query r) as [[matched nm]|].
  - intros _. unfold resolve. simpl.
    destruct (promise st) eqn:Hp; simpl; congruence.
  - exact J.
Qed.

Lemma deliver_settles query events st :
  settles st -> promise (deliver query events st) <> Pending.
Proof.
  revert st. induction events as [|[r|err] events IH]; intros st J; simpl;
    destruct (destroyed st) eqn:Hd; try (apply J; now right).
  - unfold on_end. destruct (resolved st) eqn:Hr; [apply J; now left |].
    unfold reject. destruct (promise st) eqn:Hp; simpl; congruence.
  - apply IH. now apply on_data_settles.
  - unfold on_error, reject.
    destruct (promise st) eqn:Hp; simpl; congruence.
Qed.

(** The promise of [getLocationStats] settles on every stream. *)
Lemma getLocationStats_settles searchValue events :
  getLocationStats searchValue events <> Pending.
Proof.
  apply deliver_settles. intros [H | H]; discriminate.
Qed.

(** C2. For a file and a query, the lookup resolves on the earliest row
    one of whose City, District or State fields equals the query (both
    trimmed and lower-cased), matched on City before District before
    State within that row, with that row's population, area and raw
    field as name; the result is a function of the file and the query
    alone, so a repeated call returns the same. *)
Theorem getLocationStats_first_match
    (searchValue : string) (before : list row) (r : row) (after : list row) :
  (forall r', r' ∈ before -> ~ row_matches searchValue r') ->
  row_matches searchValue r ->
  exists matched nm,
    priority searchValue r matched nm /\
    getLocationStats searchValue (rows_of_file (before ++ r :: after)) =
      Resolved {| population := num_or_zero (Number StringToNumber (Population r));
                  area := num_or_zero (Number StringToNumber (Area r));
                  matchedOn := matched;
                  name := nm |}.
Proof.
  intros Hno Hm.
  destruct (scan_match searchValue before r (rows_of_file after) Hno Hm)
    as (matched & nm & Hprio & Hp & _).
  exists matched, nm. split; [exact Hprio |].
  unfold getLocationStats, rows_of_file. rewrite fmap_app, fmap_cons.
  exact Hp.
Qed.

(** C3. When a row matches, the lookup looks at the rows up to and
    including the first matching one and at none after it, destroys the
    stream there and resolves, whatever the stream holds after that row
    (further rows, malformed or not, or a stream error); when no row of
    the file matches, every row is looked at, the stream reaches its
    end, and the lookup rejects with the no-match error. *)
Theorem getLocationStats_stops_at_match (searchValue : string) :
  (forall (before : list row) (r : row) (later : list stream_event),
     (forall r', r' ∈ before -> ~ row_matches searchValue r') ->
     row_matches searchValue r ->
     let st := scan searchValue (rows_of_file before ++ Data r :: later) in
     examined st = before ++ [r] /\ destroyed st = true /\
     exists stats, promise st = Resolved stats /\
                   getLocationStats searchValue
                     (rows_of_file before ++ Data r :: later) = Resolved stats /\
                   getLocationStats searchValue
                     (rows_of_file before ++ [Data r]) = Resolved stats) /\
  (forall file : list row,
     (forall r, r ∈ file -> ~ row_matches searchValue r) ->
     let st := scan searchValue (rows_of_file file) in
     examined st = file /\ destroyed st = false /\
     getLocationStats searchValue (rows_of_file file)
       = Rejected no_match_message).
Proof.
  split.
  - intros before r later Hno Hm.
    destruct (match_field_some _ _ Hm) as (matched & nm & Hrow & _).
    assert (Hrun : forall rest,
      let st := scan searchValue (rows_of_file before ++ Data r :: rest) in
      promise st = Resolved (stats_of r matched nm) /\
      destroyed st = true /\ examined st = before ++ [r]).
    { intros rest.
      destruct (deliver_skips searchValue before (Data r :: rest) lookup_start
                  scanning_start Hno) as (st' & Hrun & Hst' & Hex).
      unfold scan. cbv zeta. rewrite Hrun.
      destruct (deliver_match _ r matched nm rest st' Hst' Hrow)
        as (P & D & _ & X).
      rewrite P, D, X, Hex. auto. }
    destruct (Hrun later) as (P & D & X).
    destruct (Hrun []) as (P' & _).
    cbv zeta. split; [exact X |]. split; [exact D |].
    exists (stats_of r matched nm). auto.
  - intros file Hno.
    destruct (scan_no_match searchValue file Hno) as (P & X & D).
    cbv zeta. auto.
Qed.

End Dataset.

(** ** [fetchOverpass] *)

Section Failover.

Variable query : overpass_query.

Implicit Types (candidates tried rest : list (string * reply overpass_data)).

Lemma attempt_spec url r sent :
  attempt query url r sent
  = (inr (succeeds r), sent ++ [OverpassPost url query]).
Proof.
  unfold attempt, try_catch, succeeds, mbind, M_bind, send, throw, mret, M_ret.
  destruct r as [message | st text [message | data]]; simpl;
    try reflexivity; destruct (ok st); reflexivity.
Qed.

Lemma fetchOverpassFrom_cons url r rest sent :
  fetchOverpassFrom ((url, r) :: rest) query sent =
    match succeeds r with
    | Some data => (inr data, sent ++ [OverpassPost url query])
    | None => fetchOverpassFrom rest query (sent ++ [OverpassPost url query])
    end.
Proof.
  simpl. unfold mbind, M_bind at 1. rewrite attempt_spec.
  destruct (succeeds r); reflexivity.
Qed.

Lemma fetchOverpassFrom_cases candidates sent :
  ((forall c, c ∈ candidates -> succeeds c.2 = None) /\
   fetchOverpassFrom candidates query sent
   = (inl all_failed_message, sent ++ posts query candidates))
  \/
  (exists tried c rest data,
     candidates = tried ++ c :: rest /\
     (forall c', c' ∈ tried -> succeeds c'.2 = None) /\
     succeeds c.2 = Some data /\
     fetchOverpassFrom candidates query sent
     = (inr data, sent ++ posts query (tried ++ [c]))).
Proof.
  revert sent. induction candidates as [|[url r] rest IH]; intros sent.
  - left. split.
    + intros c Hc. now apply elem_of_nil in Hc.
    + simpl. now rewrite app_nil_r.
  - rewrite fetchOverpassFrom_cons.
    destruct (succeeds r) as [data|] eqn:Hurl.
    + right. exists [], (url, r), rest, data. repeat split; try assumption.
      intros c Hc. now apply elem_of_nil in Hc.
    + destruct (IH (sent ++ [OverpassPost url query]))
        as [[Hall Hrun] | (tried & c & rest' & data & E & Hno & Hok & Hrun)].
      * left. split.
        -- intros c Hc. apply elem_of_cons in Hc as [-> | Hc]; auto.
        -- rewrite Hrun, <- app_assoc. reflexivity.
      * right. exists ((url, r) :: tried), c, rest', data.
        split; [simpl; now rewrite E |].
        split; [intros c' Hc; apply elem_of_cons in Hc as [-> | Hc]; auto |].
        split; [exact Hok |].
        rewrite Hrun, <- app_assoc. reflexivity.
Qed.

End Failover.

(** C4. On every list of endpoints and every way each of them answers,
    the fetcher posts to the endpoints in list order, each at most once
    and none after the first that succeeds; an endpoint that is
    unreachable, answers with a non-ok status or with a body that does
    not parse is skipped; the result is the parsed body of the first
    endpoint that succeeds (the last one when only it succeeds); and the
    fetcher throws the all-endpoints-failed error exactly when every
    endpoint fails. It has no other outcome. *)
Theorem fetchOverpass_failover
    (candidates : list (string * reply overpass_data))
    (query : overpass_query) (sent : list call) :
  let run := fetchOverpassFrom candidates query sent in
  (((forall c, c ∈ candidates -> succeeds c.2 = None) /\
    run = (inl all_failed_message, sent ++ posts query candidates))
   \/
   (exists tried c rest data,
      candidates = tried ++ c :: rest /\
      (forall c', c' ∈ tried -> succeeds c'.2 = None) /\
      succeeds c.2 = Some data /\
      run = (inr data, sent ++ posts query (tried ++ [c]))))
  /\
  ((exists message calls, run = (inl message, calls))
   <-> (forall c, c ∈ candidates -> succeeds c.2 = None))
  /\
  (forall message calls, run = (inl message, calls) -> message = all_failed_message).
Proof.
  cbv zeta.
  pose proof (fetchOverpassFrom_cases query candidates sent) as Hcases.
  split; [exact Hcases |].
  destruct Hcases as [[Hall Hrun] | (tried & c & rest & data & E & Hno & Hok & Hrun)].
  - split; [split; [intros _; exact Hall | intros _; eauto] |].
    intros message calls Hm. rewrite Hrun in Hm. congruence.
  - split.
    + split.
      * intros (message & calls & Hm). rewrite Hrun in Hm. discriminate.
      * intros Hall. rewrite Hall in Hok; [discriminate |].
        rewrite E. apply elem_of_app. right. left.
    + intros message calls Hm. rewrite Hrun in Hm. discriminate.
Qed.

(** ** The infrastructure and water tallies *)

Section Tally.

Implicit Types (t : gmap string string) (s : list string) (el : element).

Lemma elem_of_set_add x y s : y ∈ set_add x s <-> y = x \/ y ∈ s.
Proof.
  unfold set_add. case_bool_decide as Hx.
  - split; [now right | intros [-> | H]; assumption].
  - rewrite elem_of_app, list_elem_of_singleton. tauto.
Qed.

Lemma NoDup_set_add x s : NoDup s -> NoDup (set_add x s).
Proof.
  intros Hs. unfold set_add. case_bool_decide as Hx; [exact Hs |].
  apply NoDup_app. split; [exact Hs |]. split.
  - intros y Hy Hy'. apply list_elem_of_singleton in Hy'. now subst.
  - apply NoDup_singleton.
Qed.

Lemma set_add_present x s : x ∈ s -> set_add x s = s.
Proof. intros Hx. unfold set_add. now rewrite bool_decide_eq_true_2. Qed.

Lemma tag_true t key text : tag t key text = true <-> t !! key = Some text.
Proof. unfold tag. apply bool_decide_eq_true. Qed.

Lemma tag_false t key text : tag t key text = false <-> t !! key <> Some text.
Proof. unfold tag. apply bool_decide_eq_false. Qed.

Lemma truthy_name_some t n :
  truthy_name t = Some n <-> t !! "name" = Some n /\ n <> EmptyString.
Proof.
  unfold truthy_name. destruct (t !! "name") as [text|].
  - destruct (String.eqb_spec text EmptyString); split.
    + discriminate.
    + intros [E Hn]. congruence.
    + intros E. split; congruence.
    + intros [E _]. exact E.
  - split; [discriminate | intros [E _]; discriminate].
Qed.

Lemma truthy_name_none t :
  truthy_name t = None <-> t !! "name" = None \/ t !! "name" = Some EmptyString.
Proof.
  unfold truthy_name. destruct (t !! "name") as [text|].
  - destruct (String.eqb_spec text EmptyString); split.
    + intros _. right. congruence.
    + reflexivity.
    + discriminate.
    + intros [E | E]; congruence.
  - split; [now left | reflexivity].
Qed.

Lemma is_railway_true t :
  is_railway t = true <-> matches_category RailwayStations t.
Proof.
  unfold is_railway. simpl.
  rewrite andb_true_iff, negb_true_iff, tag_true, tag_false. reflexivity.
Qed.

Lemma is_metro_true t :
  is_metro t = true <-> matches_category MetroStations t.
Proof.
  unfold is_metro. simpl.
  rewrite !orb_true_iff, andb_true_iff, !tag_true. tauto.
Qed.

Lemma matches_category_dec c t :
  matches_category c t \/ ~ matches_category c t.
Proof.
  destruct c; simpl;
    repeat match goal with
      | |- context [?t' !! ?k = Some ?v] =>
          lazymatch goal with
          | H : t' !! k = Some v |- _ => fail
          | H : t' !! k <> Some v |- _ => fail
          | _ => destruct (decide (t' !! k = Some v))
          end
      end; tauto.
Qed.

Lemma infra_visit_unnamed infra el :
  truthy_name (tags_of el) = None -> infra_visit infra el = infra.
Proof. unfold infra_visit, tags_of. now intros ->. Qed.

Lemma infra_visit_named c infra el n :
  truthy_name (tags_of el) = Some n ->
  (matches_category c (tags_of el) ->
   names_in c (infra_visit infra el) = set_add n (names_in c infra)) /\
  (~ matches_category c (tags_of el) ->
   names_in c (infra_visit infra el) = names_in c infra).
Proof.
  unfold infra_visit, tags_of. intros ->.
  destruct c; simpl names_in;
    match goal with
    | |- context [if ?b then _ else _] => destruct b eqn:Hb
    end;
    first [ apply tag_true in Hb | apply tag_false in Hb
          | apply is_railway_true in Hb | apply is_metro_true in Hb
          | apply not_true_iff_false in Hb;
            first [rewrite is_railway_true in Hb | rewrite is_metro_true in Hb] ];
    split; intros H; solve [reflexivity | contradiction].
Qed.

Lemma names_in_fold c els infra n :
  n ∈ names_in c (fold_left infra_visit els infra)
  <-> n ∈ names_in c infra \/
      exists el, el ∈ els /\ truthy_name (tags_of el) = Some n /\
                 matches_category c (tags_of el).
Proof.
  revert infra. induction els as [|el els IH]; intros infra; simpl.
  - split; [now left |]. intros [H | (el & Hel & _)]; [exact H |].
    now apply elem_of_nil in Hel.
  - rewrite IH. clear IH.
    assert (Hstep : n ∈ names_in c (infra_visit infra el)
              <-> n ∈ names_in c infra \/
                  (truthy_name (tags_of el) = Some n /\
                   matches_category c (tags_of el))).
    { destruct (truthy_name (tags_of el)) as [n'|] eqn:Hn.
      - destruct (infra_visit_named c infra el n' Hn) as [Hyes Hno].
        destruct (matches_category_dec c (tags_of el)) as [Hm | Hm].
        + rewrite (Hyes Hm), elem_of_set_add.
          split; [intros [-> | H]; auto | intros [H | [E _]]; [auto | left; congruence]].
        + rewrite (Hno Hm). split; [auto | intros [H | [_ H]]; [auto | contradiction]].
      - rewrite (infra_visit_unnamed infra el Hn).
        split; [auto | intros [H | [E _]]; [auto | discriminate]]. }
    rewrite Hstep. split.
    + intros [[H | [Hn Hm]] | (el' & Hel & Hn & Hm)]; [now left | |].
      * right. exists el. split; [left | auto].
      * right. exists el'. split; [now right | auto].
    + intros [H | (el' & Hel & Hn & Hm)]; [now left; left |].
      apply elem_of_cons in Hel as [-> | Hel]; [left; right; auto |].
      right. exists el'. auto.
Qed.

End Tally.

Lemma NoDup_infra_visit (c : infra_category) (infra : Names.t) (el : element) :
  NoDup (names_in c infra) -> NoDup (names_in c (infra_visit infra el)).
Proof.
  intros Hs. destruct (truthy_name (tags_of el)) as [n|] eqn:Hn.
  - destruct (infra_visit_named c infra el n Hn) as [Hyes Hno].
    destruct (matches_category_dec c (tags_of el)) as [Hm | Hm].
    + rewrite (Hyes Hm). now apply NoDup_set_add.
    + now rewrite (Hno Hm).
  - now rewrite (infra_visit_unnamed infra el Hn).
Qed.

Lemma NoDup_infra_fold (c : infra_category) (els : list element) (infra : Names.t) :
  NoDup (names_in c infra) -> NoDup (names_in c (fold_left infra_visit els infra)).
Proof.
  revert infra. induction els as [|el els IH]; intros infra Hs; simpl.
  - exact Hs.
  - apply IH. now apply NoDup_infra_visit.
Qed.

Lemma NoDup_infra_start (c : infra_category) : NoDup (names_in c infra_start).
Proof. destruct c; apply NoDup_nil_2. Qed.

Lemma count_in_infrastructure_of (c : infra_category) (els : list element) :
  count_in c (infrastructure_of els)
  = length (names_in c (names (infrastructure_of els))).
Proof. destruct c; reflexivity. Qed.

Lemma infra_visit_listed (c : infra_category) (infra : Names.t) (el : element) (n : string) :
  tags_of el !! "name" = Some n ->
  n ∈ names_in c infra ->
  names_in c (infra_visit infra el) = names_in c infra.
Proof.
  intros Hname Hin. destruct (truthy_name (tags_of el)) as [n'|] eqn:Hn.
  - apply truthy_name_some in Hn as Hn'. destruct Hn' as [E _].
    assert (n' = n) as -> by congruence.
    destruct (infra_visit_named c infra el n Hn) as [Hyes Hno].
    destruct (matches_category_dec c (tags_of el)) as [Hm | Hm].
    + rewrite (Hyes Hm). now apply set_add_present.
    + now apply Hno.
  - now rewrite (infra_visit_unnamed infra el Hn).
Qed.

(** C6, as the code has it. For every list of points and every
    category, the name list holds exactly the non-empty raw name strings
    (compared as they are, no normalisation) of the points matching the
    category, each once; the count is the length of the list; a point
    with no name tag, or with an empty name, leaves every count and name
    list as it would be without that point; and a further point whose name
    the category already lists changes neither its list nor its count. *)
Theorem infrastructure_distinct_names (els : list element) (c : infra_category) :
  let i := infrastructure_of els in
  (forall n : string,
     n ∈ names_in c (names i)
     <-> n <> EmptyString /\
         exists el, el ∈ els /\ tags_of el !! "name" = Some n /\
                    matches_category c (tags_of el)) /\
  NoDup (names_in c (names i)) /\
  count_in c i = length (names_in c (names i)) /\
  (forall before el after,
     els = before ++ el :: after ->
     tags_of el !! "name" = None \/ tags_of el !! "name" = Some EmptyString ->
     infrastructure_of (before ++ after) = i) /\
  (forall el n,
     tags_of el !! "name" = Some n ->
     n ∈ names_in c (names i) ->
     names_in c (names (infrastructure_of (els ++ [el]))) = names_in c (names i) /\
     count_in c (infrastructure_of (els ++ [el])) = count_in c i).
Proof.
  cbv zeta. split; [| split; [| split; [| split]]].
  - intros n. unfold infrastructure_of, infra_sets. simpl names.
    rewrite names_in_fold. split.
    + intros [H | (el & Hel & Hn & Hm)].
      * destruct c; now apply elem_of_nil in H.
      * apply truthy_name_some in Hn as [Hn Hne]. eauto.
    + intros (Hne & el & Hel & Hn & Hm). right. exists el.
      split; [exact Hel |]. split; [| exact Hm].
      apply truthy_name_some. auto.
  - apply NoDup_infra_fold, NoDup_infra_start.
  - apply count_in_infrastructure_of.
  - intros before el after -> Hname.
    unfold infrastructure_of, infra_sets. rewrite !fold_left_app. simpl.
    rewrite (infra_visit_unnamed _ el); [reflexivity |].
    now apply truthy_name_none.
  - intros el n Hname Hin.
    assert (E : names_in c (names (infrastructure_of (els ++ [el])))
                = names_in c (names (infrastructure_of els))).
    { unfold infrastructure_of, infra_sets in *. simpl names in *.
      rewrite fold_left_app. simpl. now apply infra_visit_listed with n. }
    split; [exact E |]. now rewrite !count_in_infrastructure_of, E.
Qed.

(** C7, as the code has it. Visiting a point with a non-empty name
    adds that name to railway stations when the point has railway=station
    and its station tag is not subway, and leaves railway stations as
    they are otherwise; it adds the name to metro stations when the point
    has station=subway, or railway=subway_entrance, or both
    public_transport=station and subway=yes, and leaves metro stations as
    they are otherwise. So a name not yet in the set is in it after the
    visit exactly when the rule holds. *)
Theorem infra_visit_station_rules (infra : Names.t) (el : element) (n : string) :
  tags_of el !! "name" = Some n ->
  n <> EmptyString ->
  let railway :=
    tags_of el !! "railway" = Some "station" /\
    tags_of el !! "station" <> Some "subway" in
  let metro :=
    tags_of el !! "station" = Some "subway" \/
    tags_of el !! "railway" = Some "subway_entrance" \/
    (tags_of el !! "public_transport" = Some "station" /\
     tags_of el !! "subway" = Some "yes") in
  let after := infra_visit infra el in
  (railway ->
   Names.railwayStations after = set_add n (Names.railwayStations infra)) /\
  (~ railway -> Names.railwayStations after = Names.railwayStations infra) /\
  (n ∉ Names.railwayStations infra ->
   (n ∈ Names.railwayStations after <-> railway)) /\
  (metro ->
   Names.metroStations after = set_add n (Names.metroStations infra)) /\
  (~ metro -> Names.metroStations after = Names.metroStations infra) /\
  (n ∉ Names.metroStations infra ->
   (n ∈ Names.metroStations after <-> metro)).
Proof.
  intros Hname Hne. cbv zeta.
  assert (Hn : truthy_name (tags_of el) = Some n)
    by (apply truthy_name_some; auto).
  destruct (infra_visit_named RailwayStations infra el n Hn) as [Ryes Rno].
  destruct (infra_visit_named MetroStations infra el n Hn) as [Myes Mno].
  simpl names_in in *. simpl matches_category in *.
  split; [exact Ryes |]. split; [exact Rno |]. split.
  { intros Hfresh.
    destruct (matches_category_dec RailwayStations (tags_of el)) as [Hm | Hm];
      simpl in Hm.
    - rewrite (Ryes Hm), elem_of_set_add. split; [intros _; exact Hm | now left].
    - rewrite (Rno Hm). split; [contradiction | intros H; now destruct Hm]. }
  split; [exact Myes |]. split; [exact Mno |].
  intros Hfresh.
  destruct (matches_category_dec MetroStations (tags_of el)) as [Hm | Hm];
    simpl in Hm.
  - rewrite (Myes Hm), elem_of_set_add. split; [intros _; exact Hm | now left].
  - rewrite (Mno Hm). split; [contradiction | intros H; now destruct Hm].
Qed.

(** A hospital whose name tag is the empty string matches the hospital
    rule and carries the empty raw name, which the name list does not
    hold: C6 as stated fails on it. *)
Lemma empty_name_is_dropped :
  ~ lists_every_raw_name [point [("amenity", "hospital"); ("name", EmptyString)]].
Proof.
  intros H. specialize (H Hospitals EmptyString).
  assert (Hin : EmptyString ∈ names_in Hospitals
                  (names (infrastructure_of
                            [point [("amenity", "hospital"); ("name", EmptyString)]]))).
  { apply H. eexists. split; [left |]. split; reflexivity. }
  vm_compute in Hin. now apply elem_of_nil in Hin.
Qed.

Lemma infrastructure_distinct_names_witness :
  let els := [ point [("amenity", "hospital"); ("name", "City Hospital")];
               point [("amenity", "hospital")];
               point [("amenity", "hospital"); ("name", "city hospital")];
               point [("amenity", "hospital"); ("name", "City Hospital")] ] in
  names_in Hospitals (names (infrastructure_of els))
    = ["City Hospital"; "city hospital"] /\
  count_in Hospitals (infrastructure_of els) = 2 /\
  NoDup (names_in Hospitals (names (infrastructure_of els))) /\
  infrastructure_of
    [ point [("amenity", "hospital"); ("name", "City Hospital")];
      point [("amenity", "hospital"); ("name", "city hospital")];
      point [("amenity", "hospital"); ("name", "City Hospital")] ]
  = infrastructure_of els.
Proof.
  cbv zeta.
  pose proof (infrastructure_distinct_names
    [ point [("amenity", "hospital"); ("name", "City Hospital")];
      point [("amenity", "hospital")];
      point [("amenity", "hospital"); ("name", "city hospital")];
      point [("amenity", "hospital"); ("name", "City Hospital")] ]
    Hospitals) as (_ & Hnodup & Hcount & Hunnamed & _).
  split; [reflexivity |]. split; [reflexivity |]. split; [exact Hnodup |].
  apply (Hunnamed [point [("amenity", "hospital"); ("name", "City Hospital")]]
           (point [("amenity", "hospital")])).
  - reflexivity.
  - left. reflexivity.
Defined.

(** A point with railway=station whose name tag is the empty string
    satisfies the railway rule and is not put into railway stations: C7
    as stated fails on it. *)
Lemma empty_name_not_classified :
  ~ classified_by_rule (point [("name", EmptyString); ("railway", "station")]).
Proof.
  intros H. destruct (H EmptyString eq_refl) as [[_ Hplaced] _].
  assert (Hin : EmptyString ∈ Names.railwayStations
                  (infra_visit infra_start
                     (point [("name", EmptyString); ("railway", "station")]))).
  { apply Hplaced. split; [reflexivity | discriminate]. }
  vm_compute in Hin. now apply elem_of_nil in Hin.
Qed.

Lemma infra_visit_station_rules_witness :
  let el := point [("name", "Rajiv Chowk"); ("railway", "station");
                   ("station", "subway")] in
  ("Rajiv Chowk" ∉ Names.railwayStations (infra_visit infra_start el)) /\
  ("Rajiv Chowk" ∈ Names.metroStations (infra_visit infra_start el)).
Proof.
  cbv zeta.
  destruct (infra_visit_station_rules infra_start
              (point [("name", "Rajiv Chowk"); ("railway", "station");
                      ("station", "subway")])
              "Rajiv Chowk" eq_refl) as (_ & _ & Hrail & _ & _ & Hmetro).
  - discriminate.
  - split.
    + intros Hin. apply Hrail in Hin.
      * destruct Hin as [_ Hsub]. now apply Hsub.
      * apply not_elem_of_nil.
    + apply Hmetro.
      * apply not_elem_of_nil.
      * left. reflexivity.
Defined.

(** ** Code that sends requests *)

Section Calls.

Context {A B : Type}.

Lemma bind_inr (m : M A) (f : A -> M B) sent y calls :
  mbind f m sent = (inr y, calls) ->
  exists x mid, m sent = (inr x, mid) /\ f x mid = (inr y, calls).
Proof.
  unfold mbind, M_bind. destruct (m sent) as [[err | x] mid]; intros H.
  - discriminate.
  - eauto.
Qed.

Lemma bind_run (m : M A) (f : A -> M B) sent x mid :
  m sent = (inr x, mid) -> mbind f m sent = f x mid.
Proof. unfold mbind, M_bind. now intros ->. Qed.

Lemma safeFetch_inr (c : call) (r : reply A) sent x mid :
  safeFetch c r sent = (inr x, mid) ->
  mid = sent ++ [c] /\
  exists st text, r = Answer st text (inr x) /\ ok st = true.
Proof.
  unfold safeFetch, mbind, M_bind, send, throw, mret, M_ret.
  destruct r as [message | st text [message | data]]; simpl;
    try discriminate; destruct (ok st) eqn:Hok; simpl; try discriminate.
  intros H. injection H as -> <-. eauto.
Qed.

End Calls.

(** ** Air quality *)

Section AirQuality.

Variables lat lon : number.

Lemma same_ok (status : option string) :
  same status "ok" = false <-> status <> Some "ok".
Proof.
  destruct status as [text|]; simpl.
  - rewrite String.eqb_neq. split; congruence.
  - split; [discriminate | reflexivity].
Qed.

(** [getCurrentAQI] never throws, sends one request, and gives the
    no-data reading when the call fails. *)
Lemma getCurrentAQI_total (r : reply waqi_document) sent :
  exists reading,
    getCurrentAQI lat lon r sent = (inr reading, sent ++ [WaqiFeed lat lon]) /\
    (current_call_failed r -> reading = no_data).
Proof.
  unfold getCurrentAQI, try_catch, mbind, M_bind, send, throw, mret, M_ret.
  destruct r as [message | st text [message | data]]; simpl;
    try (exists no_data; split; [reflexivity | auto]).
  destruct (same (waqi_status data) "ok") eqn:Hs; simpl.
  - destruct (waqi_body data) as [d|] eqn:Hb.
    + exists (reading_of d). split; [reflexivity |].
      intros [Hne | Hnone]; [| discriminate].
      apply same_ok in Hne. congruence.
    + exists no_data. auto.
  - exists no_data. auto.
Qed.

(** [getAQIHistory] never throws, sends one request, and gives the empty
    list when the call fails. *)
Lemma getAQIHistory_total (r : reply hourly_document) sent :
  exists points,
    getAQIHistory lat lon r sent
      = (inr points, sent ++ [OpenMeteoAirQuality lat lon]) /\
    (history_call_failed r -> points = []).
Proof.
  unfold getAQIHistory, try_catch, mbind, M_bind, send, throw, mret, M_ret.
  destruct r as [message | st text [message | data]]; simpl;
    try (exists []; split; [reflexivity | auto]).
  destruct (hourly data) as [h|]; [| exists []; split; [reflexivity | tauto]].
  destruct (pm2_5 h) as [[|sample samples]|];
    try (exists []; split; [reflexivity | tauto]).
  destruct (hourly_time h) as [times|];
    eexists; (split; [reflexivity | tauto]).
Qed.

(** [getAQISection] always returns a [{currentAQI, history}] pair. *)
Lemma getAQISection_total (r1 : reply waqi_document) (r2 : reply hourly_document) sent :
  exists s,
    getAQISection lat lon r1 r2 sent
      = (inr s, sent ++ [WaqiFeed lat lon; OpenMeteoAirQuality lat lon]) /\
    (current_call_failed r1 -> currentAQI s = no_data) /\
    (history_call_failed r2 -> history s = []).
Proof.
  destruct (getCurrentAQI_total r1 sent) as (reading & H1 & F1).
  destruct (getAQIHistory_total r2 (sent ++ [WaqiFeed lat lon]))
    as (points & H2 & F2).
  exists {| currentAQI := reading; history := points |}.
  split; [| split; [exact F1 | exact F2]].
  unfold getAQISection. rewrite (bind_run _ _ _ _ _ H1).
  rewrite (bind_run _ _ _ _ _ H2). rewrite <- app_assoc. reflexivity.
Qed.

Lemma detached_section (r1 : reply waqi_document) (r2 : reply hourly_document)
    (assigned : bool) sent :
  exists s,
    detached (getAQISection lat lon r1 r2) assigned sent
      = (inr (if assigned then Section_ s else EmptyText),
         sent ++ [WaqiFeed lat lon; OpenMeteoAirQuality lat lon]) /\
    (current_call_failed r1 -> currentAQI s = no_data) /\
    (history_call_failed r2 -> history s = []).
Proof.
  destruct (getAQISection_total r1 r2 sent) as (s & Hrun & F).
  exists s. split; [| exact F]. unfold detached. now rewrite Hrun.
Qed.

End AirQuality.

(** ** The handler *)

Section HandlerFacts.

Variable StringToNumber : string -> number.

Local Abbreviation handler := (handler StringToNumber).
Local Abbreviation try_block := (try_block StringToNumber).
Local Abbreviation getLocationStats := (getLocationStats StringToNumber).

Lemma await_lookup_inr searchValue events sent stats mid :
  await_lookup StringToNumber searchValue events sent = (inr stats, mid) ->
  getLocationStats searchValue events = Resolved stats.
Proof.
  unfold await_lookup, mbind, M_bind, send, throw, mret, M_ret. simpl.
  destruct (getLocationStats searchValue events); intros H;
    try discriminate. congruence.
Qed.

Lemma fetchOverpass_inr net query sent data mid :
  fetchOverpass net query sent = (inr data, mid) ->
  exists url, url ∈ OVERPASS_ENDPOINTS /\ succeeds (net url) = Some data.
Proof.
  unfold fetchOverpass. intros H.
  destruct (fetchOverpassFrom_cases query
              ((fun url => (url, net url)) <$> OVERPASS_ENDPOINTS) sent)
    as [[_ Hrun] | (tried & c & rest & data' & E & _ & Hok & Hrun)];
    rewrite Hrun in H; [discriminate |].
  assert (Hc : c ∈ (fun url => (url, net url)) <$> OVERPASS_ENDPOINTS)
    by (rewrite E; apply elem_of_app; right; left).
  apply list_elem_of_fmap in Hc as (url & -> & Hurl).
  exists url. split; [exact Hurl |]. simpl in Hok. congruence.
Qed.

(** What a response that carries a report was built from. *)
Lemma handler_report w req sent st rep calls :
  handler w req sent = (inr {| status := st; sent_body := ReportBody rep |}, calls) ->
  st = 200 /\
  exists searchValue stats infraData waterData,
    getLocationStats searchValue (csv w) = Resolved stats /\
    Report.population rep = population stats /\
    Report.area rep = area stats /\
    Report.infrastructure rep = infrastructure_of (elements infraData) /\
    Report.waterBodies rep = waterBodies_of (elements waterData) /\
    (aqi_assigned w = false -> Report.airQuality rep = EmptyText) /\
    (aqi_assigned w = true ->
     exists s, Report.airQuality rep = Section_ s /\
               (current_call_failed (waqi w) -> currentAQI s = no_data) /\
               (history_call_failed (air_quality_api w) -> history s = [])).
Proof.
  unfold handler, try_catch.
  destruct (try_block w req sent) as [[err | res] mid] eqn:Hb;
    [unfold mret, M_ret; intros H; discriminate |].
  intros H. injection H as -> ->.
  unfold try_block in Hb.
  destruct (or_null (query_city req)) as [cityName|];
    [| unfold mret, M_ret in Hb; discriminate].
  apply bind_inr in Hb as (places & s1 & H1 & Hb).
  destruct places as [|city places]; [discriminate |].
  cbv zeta in Hb.
  apply bind_inr in Hb as (weather & s2 & H2 & Hb).
  apply bind_inr in Hb as (stats & s3 & H3 & Hb).
  apply bind_inr in Hb as (aq & s4 & H4 & Hb).
  apply bind_inr in Hb as (infraData & s5 & H5 & Hb).
  apply bind_inr in Hb as (waterData & s6 & H6 & Hb).
  apply bind_inr in Hb as (wikipedia & s7 & H7 & Hb).
  unfold mret, M_ret in Hb. injection Hb as <- <- <-.
  split; [reflexivity |].
  apply await_lookup_inr in H3.
  exists (trim (before_comma (Place.display_name city))), stats, infraData, waterData.
  simpl. repeat (split; [reflexivity || exact H3 |]).
  destruct (detached_section (StringToNumber (Place.lat city))
              (StringToNumber (Place.lon city)) (waqi w) (air_quality_api w)
              (aqi_assigned w) s3) as (s & Hrun & F).
  rewrite Hrun in H4. injection H4 as <- _.
  split; intros Ha; rewrite Ha; [reflexivity | eauto].
Qed.

End HandlerFacts.

(** The sample request runs to a 200 response; only the [airQuality]
    field depends on whether the detached task had assigned it. *)
Lemma sample_run (assigned : bool) :
  handler decimal_to_number (sample_world assigned) sample_request []
  = (inr {| status := 200;
            sent_body := ReportBody
              (sample_report (if assigned then Section_ sample_section
                              else EmptyText)) |},
     sample_calls).
Proof. destruct assigned; vm_compute; reflexivity. Qed.

(** Whenever the detached task has not assigned the variable by the time
    the report is built, the report carries the empty string. *)
Lemma airQuality_empty_unless_assigned StringToNumber w req sent st rep calls :
  handler StringToNumber w req sent
    = (inr {| status := st; sent_body := ReportBody rep |}, calls) ->
  aqi_assigned w = false ->
  Report.airQuality rep = EmptyText.
Proof.
  intros H Ha. apply handler_report in H as (_ & sv & stats & i & wd & H).
  destruct H as (_ & _ & _ & _ & _ & Hempty & _). auto.
Qed.

(** When it has, the field is a section, with the no-data reading and the
    empty history standing in for failed calls. *)
Lemma airQuality_section_when_assigned StringToNumber w req sent st rep calls :
  handler StringToNumber w req sent
    = (inr {| status := st; sent_body := ReportBody rep |}, calls) ->
  aqi_assigned w = true ->
  exists s, Report.airQuality rep = Section_ s /\
            (current_call_failed (waqi w) -> currentAQI s = no_data) /\
            (history_call_failed (air_quality_api w) -> history s = []).
Proof.
  intros H Ha. apply handler_report in H as (_ & sv & stats & i & wd & H).
  destruct H as (_ & _ & _ & _ & _ & _ & Hsection). auto.
Qed.

(** C1, on a request the code mishandles. Every service answers well,
    the air-quality ones included, but their replies arrive after the
    Wikipedia one: the handler answers 200 and the [airQuality] field of
    the report is the empty string [airQualityString] started with, not
    a [{currentAQI, history}] object. *)
Theorem airQuality_read_before_assigned :
  handler decimal_to_number (sample_world false) sample_request []
  = (inr {| status := 200; sent_body := ReportBody (sample_report EmptyText) |},
     sample_calls) /\
  Report.airQuality (sample_report EmptyText) = EmptyText /\
  getAQISection (lit 28) (lit 77) (waqi (sample_world false))
    (air_quality_api (sample_world false)) []
  = (inr sample_section, [WaqiFeed (lit 28) (lit 77);
                          OpenMeteoAirQuality (lit 28) (lit 77)]).
Proof.
  split; [exact (sample_run false) |]. split; [reflexivity |].
  vm_compute. reflexivity.
Qed.

(** C8. A request whose [city] parameter is absent or empty is answered
    with status 400 and the error body, and the handler sends no upstream
    request for it: the list of calls is as it was. *)
Theorem handler_missing_city
    (StringToNumber : string -> number) (w : world) (req : request)
    (sent : list call) :
  query_city req = None \/ query_city req = Some EmptyString ->
  handler StringToNumber w req sent
  = (inr {| status := 400; sent_body := ErrorBody "City is required" |}, sent).
Proof.
  intros Hcity. unfold handler, try_catch, try_block.
  assert (E : or_null (query_city req) = None)
    by (destruct Hcity as [-> | ->]; reflexivity).
  rewrite E. reflexivity.
Qed.

Lemma handler_missing_city_witness :
  handler decimal_to_number (sample_world true) {| query_city := None |} []
  = (inr {| status := 400; sent_body := ErrorBody "City is required" |}, []) /\
  handler decimal_to_number (sample_world true) {| query_city := Some EmptyString |} []
  = (inr {| status := 400; sent_body := ErrorBody "City is required" |}, []).
Proof.
  split.
  - apply (handler_missing_city decimal_to_number (sample_world true)
             {| query_city := None |} []).
    left. reflexivity.
  - apply (handler_missing_city decimal_to_number (sample_world true)
             {| query_city := Some EmptyString |} []).
    right. reflexivity.
Defined.

Lemma waterBodies_of_counts (els : list element) :
  let wb := waterBodies_of els in
  Water.count (Water.rivers wb) = length (Water.names (Water.rivers wb)) /\
  Water.count (Water.otherWaterBodies wb)
  = length (Water.names (Water.otherWaterBodies wb)).
Proof.
  unfold waterBodies_of. destruct (water_sets els) as [rivers others].
  split; reflexivity.
Qed.

(** C9. In every 200 response, each of the five infrastructure counts
    is the length of the list of the same name under
    [infrastructure.names], and the count of [rivers] and of
    [otherWaterBodies] is the length of its [names]. *)
Theorem report_counts_are_lengths
    (StringToNumber : string -> number) (w : world) (req : request)
    (sent calls : list call) (rep : Report.t) :
  handler StringToNumber w req sent
    = (inr {| status := 200; sent_body := ReportBody rep |}, calls) ->
  let i := Report.infrastructure rep in
  let wb := Report.waterBodies rep in
  hospitals i = length (Names.hospitals (names i)) /\
  schools i = length (Names.schools (names i)) /\
  colleges i = length (Names.colleges (names i)) /\
  railwayStations i = length (Names.railwayStations (names i)) /\
  metroStations i = length (Names.metroStations (names i)) /\
  Water.count (Water.rivers wb) = length (Water.names (Water.rivers wb)) /\
  Water.count (Water.otherWaterBodies wb)
  = length (Water.names (Water.otherWaterBodies wb)).
Proof.
  intros H. apply handler_report in H as (_ & sv & stats & infraData & waterData & H).
  destruct H as (_ & _ & _ & Hi & Hw & _). cbv zeta. rewrite Hi, Hw.
  destruct (waterBodies_of_counts (elements waterData)) as [Hr Ho].
  repeat split; try reflexivity; assumption.
Qed.

Lemma report_counts_are_lengths_witness :
  let i := Report.infrastructure (sample_report (Section_ sample_section)) in
  let wb := Report.waterBodies (sample_report (Section_ sample_section)) in
  hospitals i = length (Names.hospitals (names i)) /\
  schools i = length (Names.schools (names i)) /\
  colleges i = length (Names.colleges (names i)) /\
  railwayStations i = length (Names.railwayStations (names i)) /\
  metroStations i = length (Names.metroStations (names i)) /\
  Water.count (Water.rivers wb) = length (Water.names (Water.rivers wb)) /\
  Water.count (Water.otherWaterBodies wb)
  = length (Water.names (Water.otherWaterBodies wb)).
Proof.
  exact (report_counts_are_lengths decimal_to_number (sample_world true)
           sample_request [] sample_calls
           (sample_report (Section_ sample_section)) (sample_run true)).
Defined.

(** ** Population and area *)

Section Counts.

Variable StringToNumber : string -> number.

Lemma num_or_zero_not_NaN n : is_NaN (num_or_zero n) = false.
Proof.
  unfold num_or_zero. destruct n as [| |q|]; simpl; try reflexivity.
  destruct (negb (Qeq_bool q 0)); reflexivity.
Qed.

Lemma num_or_zero_falsy n : num_truthy n = false -> num_or_zero n = Finite 0.
Proof. unfold num_or_zero. now intros ->. Qed.

Lemma Number_not_numeric field :
  StringToNumber EmptyString = Finite 0 ->
  not_numeric StringToNumber field ->
  num_or_zero (Number StringToNumber field) = Finite 0.
Proof.
  intros Hempty [-> | [-> | (text & -> & Hnan)]]; apply num_or_zero_falsy; simpl.
  - reflexivity.
  - rewrite Hempty. reflexivity.
  - rewrite Hnan. reflexivity.
Qed.

(** Whatever the lookup resolves with was built by [stats_of]. *)
Lemma deliver_resolved query events st stats :
  promise (deliver StringToNumber query events st) = Resolved stats ->
  promise st = Resolved stats \/
  exists r matched nm, stats = stats_of StringToNumber r matched nm.
Proof.
  revert st. induction events as [|[r|err] events IH]; intros st; simpl;
    destruct (destroyed st) eqn:Hd; try (now left).
  - unfold on_end, reject. destruct (resolved st); [now left |].
    destruct (promise st) eqn:Hp; simpl; intros H; try discriminate;
      left; congruence.
  - intros H. apply IH in H as [H | H]; [| now right].
    unfold on_data in H. destruct (resolved st); [now left |].
    destruct (match_field query r) as [[matched nm]|]; [| now left].
    unfold resolve in H. simpl in H.
    destruct (promise st) eqn:Hp; simpl in H; rewrite ?Hp in H.
    + right. exists r, matched, nm. congruence.
    + left. congruence.
    + discriminate.
  - unfold on_error, reject.
    destruct (promise st) eqn:Hp; simpl; intros H; try discriminate;
      left; congruence.
Qed.

Lemma getLocationStats_numbers searchValue events stats :
  getLocationStats StringToNumber searchValue events = Resolved stats ->
  is_NaN (population stats) = false /\ is_NaN (area stats) = false.
Proof.
  intros H. apply deliver_resolved in H as [H | (r & matched & nm & ->)].
  - discriminate.
  - split; apply num_or_zero_not_NaN.
Qed.

End Counts.

(** C10. For a matched row the lookup resolves whatever its Population
    and Area fields hold; the population and the area it returns are
    numbers other than NaN, and are 0 when the field is missing, empty
    or not the text of a number; and the [population] and [area] of
    every report the handler sends are numbers other than NaN. (The
    built-in conversion is a parameter, known to send the empty string
    to 0.) *)
Theorem population_and_area_are_numbers (StringToNumber : string -> number) :
  StringToNumber EmptyString = Finite 0 ->
  (forall (searchValue : string) (before : list row) (r : row) (after : list row),
     (forall r', r' ∈ before -> ~ row_matches searchValue r') ->
     row_matches searchValue r ->
     exists stats,
       getLocationStats StringToNumber searchValue
         (rows_of_file (before ++ r :: after)) = Resolved stats /\
       is_NaN (population stats) = false /\
       is_NaN (area stats) = false /\
       (not_numeric StringToNumber (Population r) -> population stats = Finite 0) /\
       (not_numeric StringToNumber (Area r) -> area stats = Finite 0)) /\
  (forall (w : world) (req : request) (sent calls : list call)
          (st : nat) (rep : Report.t),
     handler StringToNumber w req sent
       = (inr {| status := st; sent_body := ReportBody rep |}, calls) ->
     is_NaN (Report.population rep) = false /\
     is_NaN (Report.area rep) = false).
Proof.
  intros Hempty. split.
  - intros searchValue before r after Hno Hm.
    destruct (scan_match StringToNumber searchValue before r
                (rows_of_file after) Hno Hm)
      as (matched & nm & _ & Hp & _).
    exists (stats_of StringToNumber r matched nm). split.
    + unfold getLocationStats, rows_of_file. rewrite fmap_app, fmap_cons.
      exact Hp.
    + simpl. split; [apply num_or_zero_not_NaN |].
      split; [apply num_or_zero_not_NaN |].
      split; apply Number_not_numeric; exact Hempty.
  - intros w req sent calls st rep H.
    apply handler_report in H as (_ & sv & stats & i & wd & H).
    destruct H as (Hs & -> & -> & _).
    eapply getLocationStats_numbers. exact Hs.
Qed.

(** ** Worked examples on the sample file *)

Lemma sample_no_match (searchValue : string) (file : list row) :
  forallb (fun r => bool_decide (match_field (toLowerCase (trim searchValue)) r = None))
          file = true ->
  forall r, r ∈ file -> ~ row_matches searchValue r.
Proof.
  intros Hall r Hin. apply match_field_none.
  rewrite forallb_forall in Hall. apply list_elem_of_In in Hin.
  specialize (Hall r Hin). cbv beta in Hall.
  apply bool_decide_eq_true in Hall. exact Hall.
Qed.

Lemma getLocationStats_first_match_witness :
  exists matched nm,
    priority "Delhi" new_delhi_row matched nm /\
    getLocationStats decimal_to_number "Delhi"
      (rows_of_file ([mumbai_row] ++ new_delhi_row :: [delhi_row]))
    = Resolved {| population := num_or_zero (Number decimal_to_number (Some EmptyString));
                  area := num_or_zero (Number decimal_to_number (Some "n/a"));
                  matchedOn := matched;
                  name := nm |}.
Proof.
  apply (getLocationStats_first_match decimal_to_number "Delhi"
           [mumbai_row] new_delhi_row [delhi_row]).
  - apply sample_no_match. reflexivity.
  - right. left. exists " DELHI ". split; reflexivity.
Defined.

Lemma getLocationStats_stops_at_match_witness :
  examined (scan decimal_to_number "Delhi"
              (rows_of_file [mumbai_row]
               ++ Data new_delhi_row :: [StreamError "Invalid row"; Data delhi_row]))
  = [mumbai_row; new_delhi_row] /\
  getLocationStats decimal_to_number "Pune" (rows_of_file sample_file)
  = Rejected no_match_message.
Proof.
  split.
  - destruct (getLocationStats_stops_at_match decimal_to_number "Delhi")
      as [Hstop _].
    destruct (Hstop [mumbai_row] new_delhi_row
                [StreamError "Invalid row"; Data delhi_row]) as (X & _).
    + apply sample_no_match. reflexivity.
    + right. left. exists " DELHI ". split; reflexivity.
    + exact X.
  - destruct (getLocationStats_stops_at_match decimal_to_number "Pune")
      as [_ Hend].
    destruct (Hend sample_file) as (_ & _ & R).
    + apply sample_no_match. reflexivity.
    + exact R.
Defined.

Lemma population_and_area_are_numbers_witness :
  decimal_to_number EmptyString = Finite 0 /\
  exists stats,
    getLocationStats decimal_to_number "Delhi"
      (rows_of_file ([mumbai_row] ++ new_delhi_row :: [delhi_row]))
    = Resolved stats /\
    population stats = Finite 0 /\ area stats = Finite 0.
Proof.
  split; [reflexivity |].
  destruct (population_and_area_are_numbers decimal_to_number eq_refl)
    as [Hrow _].
  destruct (Hrow "Delhi" [mumbai_row] new_delhi_row [delhi_row])
    as (stats & Hs & _ & _ & Hpop & Harea).
  - apply sample_no_match. reflexivity.
  - right. left. exists " DELHI ". split; reflexivity.
  - exists stats. split; [exact Hs |]. split.
    + apply Hpop. right. left. reflexivity.
    + apply Harea. right. right. exists "n/a". split; reflexivity.
Defined.

(** Only the last mirror answers: its body is the result, after one POST
    to each endpoint in list order. *)
Example fetchOverpass_last_mirror :
  let net := fun url =>
    if String.eqb url "https://overpass.nchc.org.tw/api/interpreter"
    then Answer 200 "ok" (inr sample_water)
    else if String.eqb url "https://overpass-api.de/api/interpreter"
    then Unreachable "fetch failed"
    else Answer 429 "Too Many Requests" (inr sample_infra) in
  fetchOverpass net (waterQuery (lit 28) (lit 77)) []
  = (inr sample_water,
     (fun url => OverpassPost url (waterQuery (lit 28) (lit 77)))
       <$> OVERPASS_ENDPOINTS).
Proof. vm_compute. reflexivity. Qed.

(** Names differing in case are two entries. *)
Example infrastructure_case_sensitive :
  infrastructure_of
    [ point [("amenity", "hospital"); ("name", "City Hospital")];
      point [("amenity", "hospital"); ("name", "city hospital")] ]
  = {| hospitals := 2; schools := 0; colleges := 0;
       railwayStations := 0; metroStations := 0;
       names := {| Names.hospitals := ["City Hospital"; "city hospital"];
                   Names.schools := []; Names.colleges := [];
                   Names.railwayStations := []; Names.metroStations := [] |} |}.
Proof. vm_compute. reflexivity. Qed.

(** ** Trimming and lower-casing commute *)

Lemma is_space_lower_char (c : ascii) : is_space (lower_char c) = is_space c.
Proof. destruct c as [[] [] [] [] [] [] [] []]; reflexivity. Qed.

Lemma toLowerCase_trimStart (s : string) :
  toLowerCase (trimStart s) = trimStart (toLowerCase s).
Proof.
  induction s as [|c s IH]; simpl; [reflexivity |].
  rewrite is_space_lower_char. destruct (is_space c); [exact IH | reflexivity].
Qed.

Lemma toLowerCase_trimEnd (s : string) :
  toLowerCase (trimEnd s) = trimEnd (toLowerCase s).
Proof.
  induction s as [|c s IH]; simpl; [reflexivity |].
  rewrite <- IH, is_space_lower_char.
  destruct (trimEnd s); simpl; [destruct (is_space c) |]; reflexivity.
Qed.

(** Lower-casing a trimmed string and trimming a lower-cased one give the
    same text, so the order of the two in [field_equals] is immaterial. *)
Lemma toLowerCase_trim (s : string) :
  toLowerCase (trim s) = trim (toLowerCase s).
Proof.
  unfold trim. now rewrite toLowerCase_trimEnd, toLowerCase_trimStart.
Qed.

(** * Further properties of the code *)

(** ** Running the steps of the handler forwards *)

Section Runs.

Context {A B : Type}.

Lemma bind_fail (m : M A) (f : A -> M B) sent err mid :
  m sent = (inl err, mid) -> mbind f m sent = (inl err, mid).
Proof. unfold mbind, M_bind. now intros ->. Qed.

Lemma safeFetch_run (c : call) (r : reply A) sent :
  safeFetch c r sent = (fetch_outcome r, sent ++ [c]).
Proof.
  unfold safeFetch, fetch_outcome, mbind, M_bind, send, throw, mret, M_ret.
  destruct r as [message | st text [message | data]]; simpl;
    try reflexivity; destruct (ok st); reflexivity.
Qed.

End Runs.

Lemma await_lookup_run StringToNumber searchValue events sent :
  await_lookup StringToNumber searchValue events sent =
    (match getLocationStats StringToNumber searchValue events with
     | Resolved stats => inr stats
     | Rejected err => inl err
     | Pending => inl EmptyString
     end, sent ++ [DatasetFile searchValue]).
Proof.
  unfold await_lookup, mbind, M_bind, send, throw, mret, M_ret. simpl.
  destruct (getLocationStats StringToNumber searchValue events); reflexivity.
Qed.

Lemma fetchOverpassFrom_all_fail query
    (candidates : list (string * reply overpass_data)) sent :
  (forall c, c ∈ candidates -> succeeds c.2 = None) ->
  fetchOverpassFrom candidates query sent
  = (inl all_failed_message, sent ++ posts query candidates).
Proof.
  revert sent. induction candidates as [|[url r] rest IH]; intros sent Hall.
  - simpl. now rewrite app_nil_r.
  - rewrite fetchOverpassFrom_cons.
    assert (Hr : succeeds r = None) by (apply (Hall (url, r)); left).
    rewrite Hr, IH by (intros c Hc; apply Hall; now right).
    simpl. now rewrite <- app_assoc.
Qed.

Lemma fetchOverpassFrom_first query
    (tried : list (string * reply overpass_data)) c rest data sent :
  (forall c', c' ∈ tried -> succeeds c'.2 = None) ->
  succeeds c.2 = Some data ->
  fetchOverpassFrom (tried ++ c :: rest) query sent
  = (inr data, sent ++ posts query (tried ++ [c])).
Proof.
  revert sent. induction tried as [|[url r] tried IH]; intros sent Hno Hok.
  - destruct c as [url r]. simpl app. rewrite fetchOverpassFrom_cons.
    simpl in Hok. now rewrite Hok.
  - simpl app. rewrite fetchOverpassFrom_cons.
    assert (Hr : succeeds r = None) by (apply (Hno (url, r)); left).
    rewrite Hr, IH; [| intros c' Hc; apply Hno; now right | assumption].
    simpl. now rewrite <- app_assoc.
Qed.

Lemma posts_paired query (net : string -> reply overpass_data) (urls : list string) :
  posts query ((fun url => (url, net url)) <$> urls) = posts_to query urls.
Proof. unfold posts, posts_to. now rewrite <- list_fmap_compose. Qed.

Lemma fetchOverpass_all_fail net query sent :
  all_mirrors_fail net ->
  fetchOverpass net query sent
  = (inl all_failed_message, sent ++ posts_to query OVERPASS_ENDPOINTS).
Proof.
  intros Hall. unfold fetchOverpass.
  rewrite fetchOverpassFrom_all_fail, posts_paired; [reflexivity |].
  intros c Hc. apply list_elem_of_fmap in Hc as (url & -> & Hurl).
  now apply Hall.
Qed.

Lemma fetchOverpass_answered net query tried url data sent :
  answered_by net tried url data ->
  fetchOverpass net query sent
  = (inr data, sent ++ posts_to query (tried ++ [url])).
Proof.
  intros (rest & E & Hno & Hok). unfold fetchOverpass. rewrite E.
  rewrite fmap_app, fmap_cons.
  rewrite (fetchOverpassFrom_first query _ _ _ data).
  - rewrite <- (posts_paired query net (tried ++ [url])).
    now rewrite fmap_app.
  - intros c Hc. apply list_elem_of_fmap in Hc as (u & -> & Hu).
    now apply Hno.
  - exact Hok.
Qed.

(** ** What the air-quality functions return *)

Lemma getCurrentAQI_run lat lon (r : reply waqi_document) sent :
  getCurrentAQI lat lon r sent
  = (inr (current_reading r), sent ++ [WaqiFeed lat lon]).
Proof.
  unfold getCurrentAQI, current_reading, try_catch, mbind, M_bind, send,
    throw, mret, M_ret.
  destruct r as [message | st text [message | data]]; simpl; try reflexivity.
  destruct (same (waqi_status data) "ok"); simpl; [| reflexivity].
  destruct (waqi_body data); reflexivity.
Qed.

Lemma getAQIHistory_run lat lon (r : reply hourly_document) sent :
  getAQIHistory lat lon r sent
  = (inr (history_points r), sent ++ [OpenMeteoAirQuality lat lon]).
Proof.
  unfold getAQIHistory, history_points, try_catch, mbind, M_bind, send,
    throw, mret, M_ret.
  destruct r as [message | st text [message | data]]; simpl; try reflexivity.
  destruct (hourly data) as [h|]; [| reflexivity].
  destruct (pm2_5 h) as [[|sample samples]|], (hourly_time h) as [times|];
    reflexivity.
Qed.

Lemma getAQISection_run lat lon r1 r2 sent :
  getAQISection lat lon r1 r2 sent
  = (inr {| currentAQI := current_reading r1; history := history_points r2 |},
     sent ++ [WaqiFeed lat lon; OpenMeteoAirQuality lat lon]).
Proof.
  unfold getAQISection.
  rewrite (bind_run _ _ _ _ _ (getCurrentAQI_run lat lon r1 sent)).
  rewrite (bind_run _ _ _ _ _ (getAQIHistory_run lat lon r2 _)).
  now rewrite <- app_assoc.
Qed.

Lemma detached_run StringToNumber (w : world) (city : Place.t) sent :
  detached (getAQISection (StringToNumber (Place.lat city))
              (StringToNumber (Place.lon city)) (waqi w) (air_quality_api w))
           (aqi_assigned w) sent
  = (inr (airQuality_read w), sent ++ aqi_calls StringToNumber city).
Proof. unfold detached. now rewrite getAQISection_run. Qed.

(** ** Which failures end a request, and what had been sent by then *)

Section Fatal.

Variable StringToNumber : string -> number.
Variable w : world.
Variable req : request.
Variable cityName : string.
Variable city : Place.t.

Local Abbreviation handler := (handler StringToNumber).
Local Abbreviation lat := (StringToNumber (Place.lat city)).
Local Abbreviation lon := (StringToNumber (Place.lon city)).

Lemma or_null_present (s : option string) (text : string) :
  s = Some text -> text <> EmptyString -> or_null s = Some text.
Proof.
  intros -> Hne. simpl. destruct (String.eqb_spec text EmptyString); congruence.
Qed.


(** The steps of [try_block], each rewritten by what it returns. *)
Ltac run_step :=
  first
    [ erewrite bind_run by (rewrite safeFetch_run; f_equal; eassumption)
    | erewrite bind_fail by (rewrite safeFetch_run; f_equal; eassumption)
    | erewrite bind_run by (rewrite await_lookup_run; f_equal;
                            match goal with H : _ = Resolved _ |- _ =>
                              unfold dataset_key in H; rewrite H end;
                            reflexivity)
    | erewrite bind_fail by (rewrite await_lookup_run; f_equal;
                             match goal with H : _ = Rejected _ |- _ =>
                               unfold dataset_key in H; rewrite H end;
                             reflexivity)
    | erewrite bind_run by apply detached_run
    | erewrite bind_run by (apply fetchOverpass_answered; eassumption)
    | erewrite bind_fail by (apply fetchOverpass_all_fail; eassumption) ].

(** X1. When the request names a city and the geocoding call fails, or
    the geocoder finds nothing, the request ends in a 500 carrying the
    message of that failure ("City not found" for an empty result), and
    nothing but the geocoding request has been sent. *)
Theorem handler_geocoding_fatal (sent : list call) :
  query_city req = Some cityName ->
  cityName <> EmptyString ->
  (forall message,
     fetch_outcome (nominatim w) = inl message ->
     handler w req sent = (inr (failure message), sent ++ [Nominatim cityName])) /\
  (fetch_outcome (nominatim w) = inr [] ->
   handler w req sent
   = (inr (failure "City not found"), sent ++ [Nominatim cityName])).
Proof.
  intros Hq Hne.
  split; [intros message Hgeo | intros Hgeo];
    unfold handler, try_catch, try_block;
    rewrite (or_null_present _ _ Hq Hne); run_step; reflexivity.
Qed.


Ltac enter_handler Hgeo :=
  let others := fresh "others" in
  let Hq := fresh "Hq" in
  let Hne := fresh "Hne" in
  let Hfirst := fresh "Hfirst" in
  destruct Hgeo as (Hq & Hne & others & Hfirst);
  unfold handler, try_catch, try_block;
  rewrite (or_null_present _ _ Hq Hne); run_step; cbv beta iota zeta.

(** X2. With the place geocoded, a failing forecast call ends the request
    in a 500 carrying that failure's message; only the geocoding and the
    forecast requests have been sent, and the dataset is not read. *)
Theorem handler_forecast_fatal (sent : list call) (message : string) :
  geocoded w req cityName city ->
  fetch_outcome (forecast w) = inl message ->
  handler w req sent
  = (inr (failure message),
     sent ++ [Nominatim cityName; OpenMeteoForecast lat lon]).
Proof.
  intros Hgeo Hweather. enter_handler Hgeo. run_step.
  rewrite <- app_assoc. reflexivity.
Qed.

(** X3. With the place geocoded and the forecast fetched, a rejected
    dataset lookup ends the request in a 500 carrying the rejection's
    message; the air-quality task is never started and no Overpass or
    Wikipedia request is sent. For a file none of whose rows matches,
    the message is the no-match one. *)
Theorem handler_dataset_fatal (sent : list call) (weather : json) :
  geocoded w req cityName city ->
  fetch_outcome (forecast w) = inr weather ->
  (forall err,
     getLocationStats StringToNumber (dataset_key city) (csv w) = Rejected err ->
     handler w req sent
     = (inr (failure err), sent ++ opening_calls StringToNumber cityName city)) /\
  (forall file,
     csv w = rows_of_file file ->
     (forall r, r ∈ file -> ~ row_matches (dataset_key city) r) ->
     handler w req sent
     = (inr (failure no_match_message),
        sent ++ opening_calls StringToNumber cityName city)).
Proof.
  intros Hgeo Hweather.
  assert (Hrej : forall err,
    getLocationStats StringToNumber (dataset_key city) (csv w) = Rejected err ->
    handler w req sent
    = (inr (failure err), sent ++ opening_calls StringToNumber cityName city)).
  { intros err Hstats. enter_handler Hgeo. run_step. run_step.
    rewrite <- !app_assoc. reflexivity. }
  split; [exact Hrej |].
  intros file Hfile Hno. apply Hrej. rewrite Hfile.
  destruct (scan_no_match StringToNumber (dataset_key city) file Hno)
    as (P & _). exact P.
Qed.




End Fatal.

(** ** The shape of every answer, and how many requests it costs *)

Section Budget.

Context {A B : Type}.

Lemma sends_ret (x : A) : sends_at_most 0 (mret x : M A).
Proof.
  intros sent res sent' H. injection H as <- <-. exists [].
  split; [now rewrite app_nil_r | reflexivity].
Qed.

Lemma sends_throw (message : string) : sends_at_most 0 (throw message : M A).
Proof.
  intros sent res sent' H. injection H as <- <-. exists [].
  split; [now rewrite app_nil_r | reflexivity].
Qed.

Lemma sends_weaken (j k : nat) (m : M A) :
  j <= k -> sends_at_most j m -> sends_at_most k m.
Proof.
  intros Hjk Hm sent res sent' H.
  destruct (Hm _ _ _ H) as (extra & E & Hlen). exists extra. split; [exact E | lia].
Qed.

Lemma sends_bind (j k : nat) (m : M A) (f : A -> M B) :
  sends_at_most j m -> (forall x, sends_at_most k (f x)) ->
  sends_at_most (j + k) (mbind f m).
Proof.
  intros Hm Hf sent res sent'. unfold mbind, M_bind.
  destruct (m sent) as [[err | x] mid] eqn:Hrun; intros H;
    destruct (Hm _ _ _ Hrun) as (e1 & -> & L1).
  - injection H as <- <-. exists e1. split; [reflexivity | lia].
  - destruct (Hf x _ _ _ H) as (e2 & -> & L2). exists (e1 ++ e2).
    split; [now rewrite app_assoc | rewrite length_app; lia].
Qed.

Lemma sends_try_catch (j k : nat) (body : M A) (handle : string -> M A) :
  sends_at_most j body -> (forall err, sends_at_most k (handle err)) ->
  sends_at_most (j + k) (try_catch body handle).
Proof.
  intros Hm Hh sent res sent'. unfold try_catch.
  destruct (body sent) as [[err | x] mid] eqn:Hrun; intros H;
    destruct (Hm _ _ _ Hrun) as (e1 & -> & L1).
  - destruct (Hh err _ _ _ H) as (e2 & -> & L2). exists (e1 ++ e2).
    split; [now rewrite app_assoc | rewrite length_app; lia].
  - injection H as <- <-. exists e1. split; [reflexivity | lia].
Qed.

End Budget.

Lemma sends_run {A : Type} (k : nat) (m : M A) (c : list call) :
  length c <= k ->
  (forall sent, exists res, m sent = (res, sent ++ c)) ->
  sends_at_most k m.
Proof.
  intros Hlen Hrun sent res sent' H. destruct (Hrun sent) as (res' & E).
  rewrite E in H. injection H as _ <-. eauto.
Qed.

Lemma sends_safeFetch {A : Type} (c : call) (r : reply A) :
  sends_at_most 1 (safeFetch c r).
Proof.
  apply (sends_run 1 _ [c]); [reflexivity |].
  intros sent. rewrite safeFetch_run. eauto.
Qed.

Lemma sends_await_lookup StringToNumber searchValue events :
  sends_at_most 1 (await_lookup StringToNumber searchValue events).
Proof.
  apply (sends_run 1 _ [DatasetFile searchValue]); [reflexivity |].
  intros sent. rewrite await_lookup_run. eauto.
Qed.

Lemma sends_detached lat lon r1 r2 assigned :
  sends_at_most 2 (detached (getAQISection lat lon r1 r2) assigned).
Proof.
  apply (sends_run 2 _ [WaqiFeed lat lon; OpenMeteoAirQuality lat lon]);
    [reflexivity |].
  intros sent. unfold detached. rewrite getAQISection_run. eauto.
Qed.

Lemma sends_fetchOverpassFrom candidates query :
  sends_at_most (length candidates) (fetchOverpassFrom candidates query).
Proof.
  intros sent res sent' H.
  destruct (fetchOverpassFrom_cases query candidates sent)
    as [[_ Hrun] | (tried & c & rest & data & E & _ & _ & Hrun)];
    rewrite Hrun in H; injection H as _ <-; eexists; (split; [reflexivity |]).
  - unfold posts. now rewrite length_fmap.
  - unfold posts. rewrite length_fmap, E, !length_app. simpl. lia.
Qed.

Lemma sends_fetchOverpass net query : sends_at_most 3 (fetchOverpass net query).
Proof.
  unfold fetchOverpass.
  apply (sends_weaken (length ((fun url => (url, net url)) <$> OVERPASS_ENDPOINTS)));
    [rewrite length_fmap; reflexivity | apply sends_fetchOverpassFrom].
Qed.

Lemma sends_try_block StringToNumber w req :
  sends_at_most 12 (try_block StringToNumber w req).
Proof.
  unfold try_block. destruct (or_null (query_city req)) as [cityName|].
  - apply (sends_bind 1 11); [apply sends_safeFetch |].
    intros [|city places]; [apply (sends_weaken 0); [lia | apply sends_throw] |].
    cbv zeta.
    apply (sends_bind 1 10); [apply sends_safeFetch | intros weather].
    apply (sends_bind 1 9); [apply sends_await_lookup | intros stats].
    apply (sends_bind 2 7); [apply sends_detached | intros aq].
    apply (sends_bind 3 4); [apply sends_fetchOverpass | intros infraData].
    apply (sends_bind 3 1); [apply sends_fetchOverpass | intros waterData].
    apply (sends_bind 1 0); [apply sends_safeFetch | intros wikipedia].
    apply sends_ret.
  - apply (sends_weaken 0); [lia | apply sends_ret].
Qed.

(** X8. Whatever the services answer, one request makes the handler send
    at most twelve requests of its own (the dataset read counted): the
    geocoder, the forecast, the dataset, the two air-quality calls, at
    most three Overpass POSTs per query, and the summary; requests sent
    earlier stay as they were. *)
Theorem handler_call_budget (StringToNumber : string -> number) (w : world)
    (req : request) (sent calls : list call) (res : string + response) :
  handler StringToNumber w req sent = (res, calls) ->
  exists extra, calls = sent ++ extra /\ length extra <= 12.
Proof.
  intros H.
  assert (Hs : sends_at_most (12 + 0) (handler StringToNumber w req)).
  { unfold handler. apply sends_try_catch; [apply sends_try_block |].
    intros err. apply sends_ret. }
  destruct (Hs _ _ _ H) as (extra & E & L). exists extra. split; [exact E | lia].
Qed.

Lemma handler_call_budget_witness :
  exists extra, sample_calls = [] ++ extra /\ length extra <= 12.
Proof.
  exact (handler_call_budget decimal_to_number (sample_world true)
           sample_request [] sample_calls _ (sample_run true)).
Defined.

(** With only the last mirror answering, all twelve requests are sent. *)
Example handler_twelve_calls :
  length (handler decimal_to_number
            (world_with found fine sample_file last_mirror_net fine)
            sample_request []).2 = 12.
Proof. vm_compute. reflexivity. Qed.

Lemma or_null_none (s : option string) :
  or_null s = None <-> s = None \/ s = Some EmptyString.
Proof.
  destruct s as [text|]; simpl.
  - destruct (String.eqb_spec text EmptyString) as [-> | Hne]; split;
      try discriminate; auto.
    intros [H | H]; congruence.
  - split; auto.
Qed.

Lemma try_block_inr StringToNumber w req sent res mid :
  try_block StringToNumber w req sent = (inr res, mid) ->
  (or_null (query_city req) = None /\ mid = sent /\
   res = {| status := 400; sent_body := ErrorBody "City is required" |}) \/
  (or_null (query_city req) <> None /\
   exists rep, res = {| status := 200; sent_body := ReportBody rep |}).
Proof.
  unfold try_block. intros Hb.
  destruct (or_null (query_city req)) as [cityName|].
  - right. split; [discriminate |].
    apply bind_inr in Hb as (places & s1 & H1 & Hb).
    destruct places as [|city places]; [discriminate |].
    cbv zeta in Hb.
    apply bind_inr in Hb as (weather & s2 & H2 & Hb).
    apply bind_inr in Hb as (stats & s3 & H3 & Hb).
    apply bind_inr in Hb as (aq & s4 & H4 & Hb).
    apply bind_inr in Hb as (infraData & s5 & H5 & Hb).
    apply bind_inr in Hb as (waterData & s6 & H6 & Hb).
    apply bind_inr in Hb as (wikipedia & s7 & H7 & Hb).
    unfold mret, M_ret in Hb. injection Hb as <- _. eauto.
  - left. unfold mret, M_ret in Hb. injection Hb as <- <-. auto.
Qed.

Lemma handler_answer_shape (StringToNumber : string -> number) (w : world)
    (req : request) (sent : list call) :
  exists res calls,
    handler StringToNumber w req sent = (inr res, calls) /\
    (status res = 400 \/ status res = 200 \/ status res = 500) /\
    (status res = 400 <->
     query_city req = None \/ query_city req = Some EmptyString) /\
    (status res = 200 <-> exists rep, sent_body res = ReportBody rep) /\
    (status res <> 200 -> exists message, sent_body res = ErrorBody message).
Proof.
  unfold handler, try_catch.
  destruct (try_block StringToNumber w req sent) as [[err | res] mid] eqn:Hb.
  - exists {| status := 500; sent_body := ErrorBody err |}, mid.
    split; [reflexivity |]. simpl. split; [auto |].
    split; [| split].
    + split; [discriminate |]. intros Hcity. apply or_null_none in Hcity.
      unfold try_block in Hb. rewrite Hcity in Hb. discriminate.
    + split; [discriminate | intros [rep H]; discriminate].
    + eauto.
  - exists res, mid. split; [reflexivity |].
    apply try_block_inr in Hb
      as [(Hnone & _ & ->) | (Hsome & rep & ->)]; simpl.
    + split; [auto |]. split; [| split].
      * split; [intros _; now apply or_null_none | reflexivity].
      * split; [discriminate | intros [rep H]; discriminate].
      * eauto.
    + split; [auto |]. split; [| split].
      * split; [discriminate |]. intros Hcity. apply or_null_none in Hcity.
        contradiction.
      * split; [eauto | reflexivity].
      * intros H. contradiction.
Qed.


(** ** Worked runs *)

Lemma sample_geocoded (fc : reply json) (file : list row)
    (net : overpass_query -> string -> reply overpass_data) (wk : reply json) :
  geocoded (world_with found fc file net wk) sample_request "Delhi" sample_place.
Proof.
  split; [reflexivity |]. split; [discriminate |]. exists []. reflexivity.
Qed.

Lemma handler_geocoding_fatal_witness :
  handler decimal_to_number
    (world_with (Answer 503 "Service Unavailable" (inl "Unexpected token"))
       fine sample_file dead_net fine)
    sample_request []
  = (inr (failure "Fetch failed (503): Service Unavailable"),
     [] ++ [Nominatim "Delhi"]) /\
  handler decimal_to_number
    (world_with (Answer 200 "ok" (inr [])) fine sample_file dead_net fine)
    sample_request []
  = (inr (failure "City not found"), [] ++ [Nominatim "Delhi"]).
Proof.
  split.
  - apply (proj1 (handler_geocoding_fatal decimal_to_number
                    (world_with (Answer 503 "Service Unavailable"
                                   (inl "Unexpected token"))
                       fine sample_file dead_net fine)
                    sample_request "Delhi" [] eq_refl ltac:(discriminate))).
    vm_compute. reflexivity.
  - apply (proj2 (handler_geocoding_fatal decimal_to_number
                    (world_with (Answer 200 "ok" (inr []))
                       fine sample_file dead_net fine)
                    sample_request "Delhi" [] eq_refl ltac:(discriminate))).
    reflexivity.
Defined.

Lemma handler_forecast_fatal_witness :
  handler decimal_to_number
    (world_with found (Unreachable "fetch failed") sample_file dead_net fine)
    sample_request []
  = (inr (failure "fetch failed"),
     [] ++ [Nominatim "Delhi";
            OpenMeteoForecast (decimal_to_number "28") (decimal_to_number "77")]).
Proof.
  apply (handler_forecast_fatal decimal_to_number
           (world_with found (Unreachable "fetch failed") sample_file dead_net fine)
           sample_request "Delhi" sample_place [] "fetch failed").
  - apply sample_geocoded.
  - reflexivity.
Defined.

Lemma handler_dataset_fatal_witness :
  handler decimal_to_number
    (world_with found fine [mumbai_row] dead_net fine) sample_request []
  = (inr (failure no_match_message),
     [] ++ opening_calls decimal_to_number "Delhi" sample_place).
Proof.
  apply (proj2 (handler_dataset_fatal decimal_to_number
                  (world_with found fine [mumbai_row] dead_net fine)
                  sample_request "Delhi" sample_place [] "document"
                  (sample_geocoded _ _ _ _) eq_refl)
           [mumbai_row] eq_refl).
  apply sample_no_match. reflexivity.
Defined.







(** ** Air quality: what the two lookups make of a reply *)

(** X9. Once WAQI's document says ok and has data, [getCurrentAQI]
    builds the reading from it whatever the HTTP status of the reply
    ([res.ok] is not looked at): the index as sent, its category by
    [categorizeAQI], the six pollutants pm25, pm10, no2, so2, o3, co in
    that order, each the number the document has for it and otherwise
    [null] (never [undefined]), and a dominant pollutant and a time that
    are [null] when missing or empty. One request is sent. *)
Theorem getCurrentAQI_reading (lat lon : number) (st : nat) (text : string)
    (doc : waqi_document) (d : waqi_data) (sent : list call) :
  waqi_status doc = Some "ok" ->
  waqi_body doc = Some d ->
  exists reading,
    getCurrentAQI lat lon (Answer st text (inr doc)) sent
      = (inr reading, sent ++ [WaqiFeed lat lon]) /\
    aqi reading = waqi_aqi d /\
    category reading = categorizeAQI (waqi_aqi d) /\
    (pollutants reading).*1 = ["pm25"; "pm10"; "no2"; "so2"; "o3"; "co"] /\
    (forall p v, (p, v) ∈ pollutants reading ->
       v <> Undefined /\
       (forall n, v = Num n <-> default ∅ (iaqi d) !! p = Some (Num n))) /\
    (dominentPollutant reading = None
       <-> dominentpol d = None \/ dominentpol d = Some EmptyString) /\
    (forall s, dominentPollutant reading = Some s -> dominentpol d = Some s) /\
    (time reading = None <-> time_s d = None \/ time_s d = Some EmptyString).
Proof.
  intros Hstatus Hbody. exists (reading_of d). split.
  - rewrite getCurrentAQI_run. unfold current_reading.
    now rewrite Hstatus, Hbody.
  - split; [reflexivity |]. split; [reflexivity |]. split; [reflexivity |].
    split; [| split; [apply or_null_none | split; [| apply or_null_none]]].
    + intros p v Hin.
      change (pollutants (reading_of d))
        with (pollutant (default ∅ (iaqi d))
                <$> ["pm25"; "pm10"; "no2"; "so2"; "o3"; "co"]) in Hin.
      apply list_elem_of_fmap in Hin as (p' & E & _).
      unfold pollutant in E. injection E as -> ->.
      destruct (default ∅ (iaqi d) !! p') as [[| |n]|]; split;
        try discriminate; intros n'; split; congruence.
    + intros s. simpl. destruct (dominentpol d) as [t|]; simpl; [| discriminate].
      destruct (String.eqb t EmptyString); congruence.
Qed.

Lemma getCurrentAQI_reading_witness :
  exists reading,
    getCurrentAQI (lit 28) (lit 77)
      (Answer 500 "Internal Server Error" (inr sample_waqi)) []
      = (inr reading, [] ++ [WaqiFeed (lit 28) (lit 77)]) /\
    category reading = "Unhealthy" /\
    (pollutants reading).*1 = ["pm25"; "pm10"; "no2"; "so2"; "o3"; "co"].
Proof.
  destruct (getCurrentAQI_reading (lit 28) (lit 77) 500 "Internal Server Error"
              sample_waqi
              {| waqi_aqi := Num (lit 152);
                 iaqi := Some {[ "pm25" := Num (lit 152) ]};
                 dominentpol := Some "pm25";
                 time_s := Some "2024-01-01 10:00:00" |}
              [] eq_refl eq_refl)
    as (reading & Hrun & _ & Hcat & Hkeys & _).
  exists reading. split; [exact Hrun |]. split; [exact Hcat | exact Hkeys].
Defined.

(** X10. From a document with both [hourly.pm2_5] and [hourly.time],
    [getAQIHistory] makes one point per sample, in order: the sample
    itself as pm25 (so the samples can be read back from the points),
    its category by [categorizeAQI] on the raw figure ("No data" for
    [null]), and the time at the same index, [undefined] when the time
    list is shorter. The HTTP status of the reply plays no part. When
    [hourly], [hourly.pm2_5] or (with samples present) [hourly.time] is
    missing, the history is empty: samples without a time list are all
    dropped. *)
Theorem getAQIHistory_points (lat lon : number) (st : nat) (text : string)
    (doc : hourly_document) (sent : list call) :
  exists points,
    getAQIHistory lat lon (Answer st text (inr doc)) sent
      = (inr points, sent ++ [OpenMeteoAirQuality lat lon]) /\
    (forall h samples times,
       hourly doc = Some h -> pm2_5 h = Some samples ->
       hourly_time h = Some times ->
       length points = length samples /\
       History.pm25 <$> points = samples /\
       forall i sample,
         samples !! i = Some sample ->
         points !! i = Some {| History.timestamp := times !! i;
                               History.pm25 := sample;
                               History.aqi := categorizeAQI sample |}) /\
    ((hourly doc = None \/
      exists h, hourly doc = Some h /\
                (pm2_5 h = None \/ hourly_time h = None)) ->
     points = []).
Proof.
  exists (history_points (Answer st text (inr doc))).
  split; [apply getAQIHistory_run |]. unfold history_points. split.
  - intros h samples times -> -> ->.
    split; [apply length_imap |]. split.
    + apply list_eq. intros i. rewrite list_lookup_fmap, list_lookup_imap.
      destruct (samples !! i); reflexivity.
    + intros i sample Hi. rewrite list_lookup_imap, Hi. reflexivity.
  - intros [-> | (h & -> & [-> | ->])]; [reflexivity | reflexivity |].
    destruct (pm2_5 h); reflexivity.
Qed.

Lemma getAQIHistory_points_witness :
  exists points,
    getAQIHistory (lit 28) (lit 77)
      (Answer 200 "ok"
         (inr {| hourly := Some {| hourly_time := Some ["2024-01-01T00:00"];
                                   pm2_5 := Some [Num (lit 40); Null] |} |})) []
    = (inr points, [] ++ [OpenMeteoAirQuality (lit 28) (lit 77)]) /\
    points !! 1 = Some {| History.timestamp := None;
                          History.pm25 := Null;
                          History.aqi := "No data" |}.
Proof.
  destruct (getAQIHistory_points (lit 28) (lit 77) 200 "ok"
              {| hourly := Some {| hourly_time := Some ["2024-01-01T00:00"];
                                   pm2_5 := Some [Num (lit 40); Null] |} |} [])
    as (points & Hrun & Hpoints & _).
  exists points. split; [exact Hrun |].
  destruct (Hpoints _ _ _ eq_refl eq_refl eq_refl) as (_ & _ & Hi).
  exact (Hi 1 Null eq_refl).
Defined.

(** X11. [getAQISection] cannot throw: for every pair of replies it
    returns a [{currentAQI, history}] pair after sending the WAQI request
    and then the Open-Meteo one. A failed current-AQI call (rejected
    fetch, unparsable body, a status other than ok, or no data) gives
    the no-data reading; a failed history call gives the empty list; and
    each half depends on its own reply only, so a failure of one leaves
    the other as it would be. *)
Theorem getAQISection_degrades (lat lon : number)
    (r1 : reply waqi_document) (r2 : reply hourly_document) (sent : list call) :
  exists s,
    getAQISection lat lon r1 r2 sent
      = (inr s, sent ++ [WaqiFeed lat lon; OpenMeteoAirQuality lat lon]) /\
    (current_call_failed r1 ->
     currentAQI s = {| aqi := Null; category := "No data"; pollutants := [];
                       dominentPollutant := None; time := None |}) /\
    (history_call_failed r2 -> history s = []) /\
    (forall r2' sent' s',
       getAQISection lat lon r1 r2' sent'
         = (inr s', sent' ++ [WaqiFeed lat lon; OpenMeteoAirQuality lat lon]) ->
       currentAQI s' = currentAQI s) /\
    (forall r1' sent' s',
       getAQISection lat lon r1' r2 sent'
         = (inr s', sent' ++ [WaqiFeed lat lon; OpenMeteoAirQuality lat lon]) ->
       history s' = history s).
Proof.
  destruct (getAQISection_total lat lon r1 r2 sent) as (s & Hrun & F1 & F2).
  exists s. split; [exact Hrun |]. split; [exact F1 |]. split; [exact F2 |].
  rewrite getAQISection_run in Hrun. injection Hrun as <-.
  split; intros r' sent' s' H; rewrite getAQISection_run in H;
    injection H as <-; reflexivity.
Qed.

Lemma getAQISection_degrades_witness :
  exists s,
    getAQISection (lit 28) (lit 77) (Unreachable "fetch failed")
      (Answer 200 "ok" (inr sample_hourly)) []
    = (inr s, [] ++ [WaqiFeed (lit 28) (lit 77);
                     OpenMeteoAirQuality (lit 28) (lit 77)]) /\
    currentAQI s = no_data /\ length (history s) = 2.
Proof.
  destruct (getAQISection_degrades (lit 28) (lit 77) (Unreachable "fetch failed")
              (Answer 200 "ok" (inr sample_hourly)) [])
    as (s & Hrun & Hfail & _).
  exists s. split; [exact Hrun |]. split; [exact (Hfail I) |].
  rewrite getAQISection_run in Hrun. injection Hrun as <-. reflexivity.
Defined.

(** ** The water-body tally *)

Section WaterTally.

Implicit Types (el : element) (sets : list string * list string).

Lemma water_visit_unnamed sets el :
  truthy_name (tags_of el) = None -> water_visit sets el = sets.
Proof. unfold water_visit, tags_of. now intros ->. Qed.

Lemma water_visit_named sets el n :
  truthy_name (tags_of el) = Some n ->
  (tags_of el !! "waterway" = Some "river" ->
   water_visit sets el = (set_add n sets.1, sets.2)) /\
  (tags_of el !! "waterway" <> Some "river" ->
   water_visit sets el = (sets.1, set_add n sets.2)).
Proof.
  unfold water_visit, tags_of. intros ->.
  destruct (tag (default ∅ (tags el)) "waterway" "river") eqn:Hb;
    [apply tag_true in Hb | apply tag_false in Hb];
    split; intros H; solve [reflexivity | contradiction].
Qed.

Lemma river_dec el :
  tags_of el !! "waterway" = Some "river" \/
  tags_of el !! "waterway" <> Some "river".
Proof. destruct (decide (tags_of el !! "waterway" = Some "river")); auto. Qed.

Lemma water_fold els sets n :
  (n ∈ (fold_left water_visit els sets).1
   <-> n ∈ sets.1 \/
       exists el, el ∈ els /\ truthy_name (tags_of el) = Some n /\
                  tags_of el !! "waterway" = Some "river") /\
  (n ∈ (fold_left water_visit els sets).2
   <-> n ∈ sets.2 \/
       exists el, el ∈ els /\ truthy_name (tags_of el) = Some n /\
                  tags_of el !! "waterway" <> Some "river").
Proof.
  revert sets. induction els as [|el els IH]; intros sets; simpl.
  - split; (split; [now left |]); intros [H | (el & Hel & _)];
      try exact H; now apply elem_of_nil in Hel.
  - destruct (IH (water_visit sets el)) as [IH1 IH2]. rewrite IH1, IH2.
    clear IH IH1 IH2.
    assert (Hstep :
      (n ∈ (water_visit sets el).1
       <-> n ∈ sets.1 \/ (truthy_name (tags_of el) = Some n /\
                          tags_of el !! "waterway" = Some "river")) /\
      (n ∈ (water_visit sets el).2
       <-> n ∈ sets.2 \/ (truthy_name (tags_of el) = Some n /\
                          tags_of el !! "waterway" <> Some "river"))).
    { destruct (truthy_name (tags_of el)) as [n'|] eqn:Hn.
      - destruct (water_visit_named sets el n' Hn) as [Hyes Hno].
        destruct (river_dec el) as [Hr | Hr];
          [rewrite (Hyes Hr) | rewrite (Hno Hr)]; simpl;
          rewrite elem_of_set_add.
        + split; split.
          * intros [-> | H]; auto.
          * intros [H | [E _]]; [now right | left; congruence].
          * auto.
          * intros [H | [_ H]]; [exact H | contradiction].
        + split; split.
          * auto.
          * intros [H | [_ H]]; [exact H | contradiction].
          * intros [-> | H]; auto.
          * intros [H | [E _]]; [now right | left; congruence].
      - rewrite (water_visit_unnamed sets el Hn).
        split; (split; [auto | intros [H | [E _]]; [auto | discriminate]]). }
    destruct Hstep as [S1 S2]. rewrite S1, S2. clear S1 S2.
    split; split.
    + intros [[H | [Hn Hm]] | (el' & Hel & Hn & Hm)]; [now left | |];
        right; [exists el | exists el']; (split; [| auto]);
        [left | now right].
    + intros [H | (el' & Hel & Hn & Hm)]; [now left; left |].
      apply elem_of_cons in Hel as [-> | Hel]; [left; right; auto |].
      right. exists el'. auto.
    + intros [[H | [Hn Hm]] | (el' & Hel & Hn & Hm)]; [now left | |];
        right; [exists el | exists el']; (split; [| auto]);
        [left | now right].
    + intros [H | (el' & Hel & Hn & Hm)]; [now left; left |].
      apply elem_of_cons in Hel as [-> | Hel]; [left; right; auto |].
      right. exists el'. auto.
Qed.

Lemma water_NoDup els sets :
  NoDup sets.1 -> NoDup sets.2 ->
  NoDup (fold_left water_visit els sets).1 /\
  NoDup (fold_left water_visit els sets).2.
Proof.
  revert sets. induction els as [|el els IH]; intros sets H1 H2; simpl; [auto |].
  destruct (truthy_name (tags_of el)) as [n|] eqn:Hn.
  - destruct (water_visit_named sets el n Hn) as [Hyes Hno].
    destruct (river_dec el) as [Hr | Hr];
      [rewrite (Hyes Hr) | rewrite (Hno Hr)];
      apply IH; simpl; auto using NoDup_set_add.
  - rewrite (water_visit_unnamed sets el Hn). now apply IH.
Qed.

Lemma waterBodies_of_names els :
  Water.names (Water.rivers (waterBodies_of els)) = (water_sets els).1 /\
  Water.names (Water.otherWaterBodies (waterBodies_of els)) = (water_sets els).2.
Proof. unfold waterBodies_of. destruct (water_sets els). split; reflexivity. Qed.

End WaterTally.

(** X12. The water tally lists under rivers exactly the non-empty names
    of the ways tagged waterway=river, and under other water bodies
    exactly the non-empty names of every other way returned (a stream, a
    canal, a lake, a way with no waterway tag at all), each name once
    per list; so every way with a non-empty name is listed in one of the
    two, and ways without one in neither. *)
Theorem waterBodies_names (els : list element) :
  let rivers := Water.names (Water.rivers (waterBodies_of els)) in
  let others := Water.names (Water.otherWaterBodies (waterBodies_of els)) in
  (forall n, n ∈ rivers
     <-> n <> EmptyString /\
         exists el, el ∈ els /\ tags_of el !! "name" = Some n /\
                    tags_of el !! "waterway" = Some "river") /\
  (forall n, n ∈ others
     <-> n <> EmptyString /\
         exists el, el ∈ els /\ tags_of el !! "name" = Some n /\
                    tags_of el !! "waterway" <> Some "river") /\
  NoDup rivers /\ NoDup others /\
  (forall el n, el ∈ els -> tags_of el !! "name" = Some n -> n <> EmptyString ->
     n ∈ rivers \/ n ∈ others).
Proof.
  cbv zeta. destruct (waterBodies_of_names els) as [-> ->].
  unfold water_sets.
  assert (Hr : forall n, n ∈ (fold_left water_visit els ([], [])).1
     <-> n <> EmptyString /\
         exists el, el ∈ els /\ tags_of el !! "name" = Some n /\
                    tags_of el !! "waterway" = Some "river").
  { intros n. rewrite (proj1 (water_fold els ([], []) n)). simpl. split.
    - intros [H | (el & Hel & Hn & Hw)]; [now apply elem_of_nil in H |].
      apply truthy_name_some in Hn as [Hn Hne]. eauto.
    - intros (Hne & el & Hel & Hn & Hw). right. exists el.
      split; [exact Hel |]. split; [| exact Hw]. apply truthy_name_some. auto. }
  assert (Ho : forall n, n ∈ (fold_left water_visit els ([], [])).2
     <-> n <> EmptyString /\
         exists el, el ∈ els /\ tags_of el !! "name" = Some n /\
                    tags_of el !! "waterway" <> Some "river").
  { intros n. rewrite (proj2 (water_fold els ([], []) n)). simpl. split.
    - intros [H | (el & Hel & Hn & Hw)]; [now apply elem_of_nil in H |].
      apply truthy_name_some in Hn as [Hn Hne]. eauto.
    - intros (Hne & el & Hel & Hn & Hw). right. exists el.
      split; [exact Hel |]. split; [| exact Hw]. apply truthy_name_some. auto. }
  split; [exact Hr |]. split; [exact Ho |].
  destruct (water_NoDup els ([], [])) as [N1 N2]; try apply NoDup_nil_2.
  split; [exact N1 |]. split; [exact N2 |].
  intros el n Hel Hn Hne. destruct (river_dec el) as [Hw | Hw].
  - left. apply Hr. eauto.
  - right. apply Ho. eauto.
Qed.

Lemma waterBodies_names_witness :
  Water.names (Water.rivers (waterBodies_of (elements sample_water))) = ["Yamuna"] /\
  ("Sanjay Lake" ∈ Water.names (Water.rivers (waterBodies_of (elements sample_water)))
   \/ "Sanjay Lake"
      ∈ Water.names (Water.otherWaterBodies (waterBodies_of (elements sample_water)))).
Proof.
  split; [reflexivity |].
  destruct (waterBodies_names (elements sample_water)) as (_ & _ & _ & _ & Hone).
  apply (Hone (point [("natural", "water"); ("name", "Sanjay Lake")])).
  - right. left.
  - reflexivity.
  - discriminate.
Defined.

(** ** More on the infrastructure tally *)

Section InfraOrder.

Implicit Types (c : infra_category) (el : element) (infra : Names.t).

Lemma category_test_true c (t : gmap string string) :
  category_test c t = true <-> matches_category c t.
Proof.
  destruct c; simpl;
    first [apply tag_true | apply is_railway_true | apply is_metro_true].
Qed.

Lemma names_in_visit c infra el :
  names_in c (infra_visit infra el) =
    match truthy_name (tags_of el) with
    | Some n => if category_test c (tags_of el)
                then set_add n (names_in c infra) else names_in c infra
    | None => names_in c infra
    end.
Proof.
  unfold infra_visit, tags_of.
  destruct (truthy_name (default ∅ (tags el))); destruct c; reflexivity.
Qed.

Lemma names_in_fold_adds c (els : list element) infra :
  names_in c (fold_left infra_visit els infra)
  = fold_left (fun s n => set_add n s) (matching_names c els) (names_in c infra).
Proof.
  revert infra. induction els as [|el els IH]; intros infra; [reflexivity |].
  simpl fold_left at 1. rewrite IH, names_in_visit. unfold matching_names. simpl.
  destruct (truthy_name (tags_of el)) as [n|]; [| reflexivity].
  destruct (category_test c (tags_of el)); reflexivity.
Qed.

Lemma elem_of_first_occurrences (x : string) (l : list string) :
  x ∈ first_occurrences l <-> x ∈ l.
Proof.
  unfold first_occurrences.
  now rewrite elem_of_reverse, elem_of_remove_dups, elem_of_reverse.
Qed.

Lemma fold_set_add (l : list string) :
  fold_left (fun s n => set_add n s) l [] = first_occurrences l.
Proof.
  induction l as [|x l IH] using rev_ind; [reflexivity |].
  rewrite fold_left_app. simpl. rewrite IH.
  unfold first_occurrences at 2. rewrite reverse_snoc.
  unfold set_add. simpl.
  destruct (decide_rel elem_of x (reverse l)) as [Hin | Hin].
  - rewrite bool_decide_eq_true_2; [reflexivity |].
    apply elem_of_first_occurrences. now rewrite elem_of_reverse in Hin.
  - rewrite bool_decide_eq_false_2; [now rewrite reverse_cons |].
    intros Hx. apply Hin. rewrite elem_of_first_occurrences in Hx.
    now rewrite elem_of_reverse.
Qed.

End InfraOrder.

Lemma set_add_empty (n : string) : set_add n [] = [n].
Proof.
  unfold set_add. rewrite bool_decide_eq_false_2; [reflexivity |].
  apply not_elem_of_nil.
Qed.

Lemma single_point_count (c : infra_category) (el : element) (n : string) :
  truthy_name (tags_of el) = Some n ->
  count_in c (infrastructure_of [el])
  = if category_test c (tags_of el) then 1 else 0.
Proof.
  intros Hn. rewrite count_in_infrastructure_of.
  unfold infrastructure_of, infra_sets. simpl names. simpl fold_left.
  rewrite names_in_visit, Hn.
  destruct (category_test c (tags_of el)).
  - destruct c; simpl names_in; rewrite set_add_empty; reflexivity.
  - destruct c; reflexivity.
Qed.

(** X13. The name lists of the infrastructure tally are in the order of
    the Overpass response: each list is the names of the points of its
    category, in the order the points were returned, every name kept
    where it first occurs and dropped where it recurs. *)
Theorem infrastructure_names_in_response_order
    (els : list element) (c : infra_category) :
  names_in c (names (infrastructure_of els))
  = first_occurrences (matching_names c els).
Proof.
  unfold infrastructure_of, infra_sets. simpl names.
  rewrite names_in_fold_adds.
  replace (names_in c infra_start) with (@nil string) by (destruct c; reflexivity).
  apply fold_set_add.
Qed.

(** X14. One point with a non-empty name is counted under at most one of
    hospitals, schools and colleges, but it can be counted both as a
    railway station and as a metro station: that happens exactly when it
    has railway=station, a station tag other than subway, and both
    public_transport=station and subway=yes. *)
Theorem single_point_double_count (el : element) (n : string) :
  tags_of el !! "name" = Some n ->
  n <> EmptyString ->
  let i := infrastructure_of [el] in
  hospitals i + schools i + colleges i <= 1 /\
  (railwayStations i = 1 /\ metroStations i = 1
   <-> tags_of el !! "railway" = Some "station" /\
       tags_of el !! "station" <> Some "subway" /\
       tags_of el !! "public_transport" = Some "station" /\
       tags_of el !! "subway" = Some "yes").
Proof.
  intros Hname Hne. cbv zeta.
  assert (Hn : truthy_name (tags_of el) = Some n)
    by (apply truthy_name_some; auto).
  pose proof (single_point_count Hospitals el n Hn) as Hh.
  pose proof (single_point_count Schools el n Hn) as Hs.
  pose proof (single_point_count Colleges el n Hn) as Hc.
  pose proof (single_point_count RailwayStations el n Hn) as Hr.
  pose proof (single_point_count MetroStations el n Hn) as Hm.
  cbv beta iota delta [count_in category_test] in Hh, Hs, Hc, Hr, Hm. split.
  - rewrite Hh, Hs, Hc.
    destruct (tag (tags_of el) "amenity" "hospital") eqn:T1;
      destruct (tag (tags_of el) "amenity" "school") eqn:T2;
      destruct (tag (tags_of el) "amenity" "college") eqn:T3;
      rewrite ?tag_true in *; simpl; try lia; congruence.
  - rewrite Hr, Hm.
    destruct (is_railway (tags_of el)) eqn:R;
      [apply is_railway_true in R
      | apply not_true_iff_false in R; rewrite is_railway_true in R];
      (destruct (is_metro (tags_of el)) eqn:Me;
       [apply is_metro_true in Me
       | apply not_true_iff_false in Me; rewrite is_metro_true in Me]);
      simpl in R, Me; split.
    + intros _. destruct R as [R1 R2].
      destruct Me as [Me | [Me | [Me1 Me2]]]; [contradiction | congruence | auto].
    + auto.
    + intros [_ H]; discriminate.
    + intros (R1 & R2 & P & S). exfalso. apply Me. auto.
    + intros [H _]; discriminate.
    + intros (R1 & R2 & P & S). exfalso. apply R. auto.
    + intros [H _]; discriminate.
    + intros (R1 & R2 & P & S). exfalso. apply R. auto.
Qed.

Lemma single_point_double_count_witness :
  let el := point [("name", "Kashmere Gate"); ("railway", "station");
                   ("public_transport", "station"); ("subway", "yes")] in
  railwayStations (infrastructure_of [el]) = 1 /\
  metroStations (infrastructure_of [el]) = 1.
Proof.
  cbv zeta.
  destruct (single_point_double_count
              (point [("name", "Kashmere Gate"); ("railway", "station");
                      ("public_transport", "station"); ("subway", "yes")])
              "Kashmere Gate" eq_refl) as [_ Hboth].
  - discriminate.
  - apply Hboth. repeat split; try reflexivity. discriminate.
Defined.

(** ** More on the dataset lookup *)

Lemma match_field_priority searchValue r matched nm :
  match_field (toLowerCase (trim searchValue)) r = Some (matched, nm) ->
  priority searchValue r matched nm.
Proof.
  unfold match_field.
  destruct (same (normalised (City r)) _) eqn:EC;
    [apply same_normalised in EC | apply same_normalised_false in EC].
  { intros H. injection H as <- <-. now constructor. }
  destruct (same (normalised (District r)) _) eqn:ED;
    [apply same_normalised in ED | apply same_normalised_false in ED].
  { intros H. injection H as <- <-. now constructor. }
  destruct (same (normalised (State r)) _) eqn:ES;
    [apply same_normalised in ES | apply same_normalised_false in ES].
  { intros H. injection H as <- <-. now constructor. }
  discriminate.
Qed.

Lemma priority_name searchValue r matched nm :
  priority searchValue r matched nm ->
  (matched = "city" \/ matched = "district" \/ matched = "state") /\
  field_equals nm searchValue /\ row_matches searchValue r.
Proof.
  unfold row_matches. intros [H | H1 H | H1 H2 H]; auto 10.
Qed.

Section Streams.

Variable StringToNumber : string -> number.

Local Abbreviation deliver := (deliver StringToNumber).
Local Abbreviation stats_of := (stats_of StringToNumber).

Lemma deliver_outcome query events st :
  match promise (deliver query events st) with
  | Pending => promise st = Pending
  | Resolved stats =>
      promise st = Resolved stats \/
      exists r matched nm,
        Data r ∈ events /\ match_field query r = Some (matched, nm) /\
        stats = stats_of r matched nm
  | Rejected err =>
      promise st = Rejected err \/ err = no_match_message \/
      StreamError err ∈ events
  end.
Proof.
  revert st. induction events as [|[r|err] events IH]; intros st; simpl;
    destruct (destroyed st) eqn:Hd;
    try (destruct (promise st); auto; fail).
  - unfold on_end, reject. destruct (resolved st);
      [destruct (promise st); auto |].
    destruct (promise st) eqn:Hp; simpl; rewrite ?Hp; auto.
  - specialize (IH (on_data StringToNumber query r st)).
    assert (Hstep :
      promise (on_data StringToNumber query r st) = promise st \/
      (promise st = Pending /\
       exists matched nm, match_field query r = Some (matched, nm) /\
         promise (on_data StringToNumber query r st)
         = Resolved (stats_of r matched nm))).
    { unfold on_data. destruct (resolved st); [now left |].
      destruct (match_field query r) as [[matched nm]|]; [| now left].
      unfold resolve. simpl. destruct (promise st) eqn:Hp; simpl; rewrite ?Hp; auto.
      right. eauto. }
    destruct (promise (deliver query events (on_data StringToNumber query r st)))
      as [|stats|err'].
    + destruct Hstep as [E | (Hp & matched & nm & _ & E)]; congruence.
    + destruct IH as [IH | (r' & matched & nm & Hin & Hm & ->)].
      * destruct Hstep as [E | (Hp & matched & nm & Hm & E)].
        -- left. congruence.
        -- right. exists r, matched, nm. split; [left |]. split; [exact Hm |].
           congruence.
      * right. exists r', matched, nm. split; [now right | auto].
    + destruct IH as [IH | [IH | IH]].
      * destruct Hstep as [E | (Hp & matched & nm & _ & E)];
          [left | ]; congruence.
      * auto.
      * right. right. now right.
  - unfold on_error, reject.
    destruct (promise st) eqn:Hp; simpl; rewrite ?Hp; auto.
    right. right. left.
Qed.


(** X16. Whatever the stream delivers, the lookup makes nothing up. If
    it resolves, some row of the stream matches the query, the result
    was built from that row, it is matched on city, district or state,
    and its name is a field of that row equal to the query once both are
    trimmed and lower-cased. If it rejects, the message is the no-match
    one or that of an error the stream delivered. *)
Theorem getLocationStats_sound (searchValue : string)
    (events : list stream_event) :
  (forall stats,
     getLocationStats StringToNumber searchValue events = Resolved stats ->
     exists r,
       Data r ∈ events /\ row_matches searchValue r /\
       population stats = num_or_zero (Number StringToNumber (Population r)) /\
       area stats = num_or_zero (Number StringToNumber (Area r)) /\
       (matchedOn stats = "city" \/ matchedOn stats = "district" \/
        matchedOn stats = "state") /\
       field_equals (name stats) searchValue /\
       (name stats = City r \/ name stats = District r \/ name stats = State r)) /\
  (forall err,
     getLocationStats StringToNumber searchValue events = Rejected err ->
     err = no_match_message \/ StreamError err ∈ events).
Proof.
  pose proof (deliver_outcome (toLowerCase (trim searchValue)) events lookup_start)
    as H.
  unfold getLocationStats, scan. split.
  - intros stats E. rewrite E in H.
    destruct H as [H | (r & matched & nm & Hin & Hm & ->)]; [discriminate |].
    apply match_field_priority in Hm as Hprio.
    destruct (priority_name _ _ _ _ Hprio) as (Hon & Hname & Hrow).
    exists r. simpl. repeat (split; [assumption || reflexivity |]).
    destruct Hprio; auto.
  - intros err E. rewrite E in H. destruct H as [H | H]; [discriminate | exact H].
Qed.

End Streams.


Lemma getLocationStats_sound_witness :
  exists r, Data r ∈ rows_of_file sample_file /\ row_matches "delhi " r.
Proof.
  destruct (proj1 (getLocationStats_sound decimal_to_number "delhi "
                     (rows_of_file sample_file))
              {| population := Finite 0; area := Finite 0;
                 matchedOn := "district"; name := Some " DELHI " |})
    as (r & Hin & Hrow & _).
  - vm_compute. reflexivity.
  - exists r. auto.
Defined.

(** ** The query is read without its case and its outer white space *)

Lemma lower_char_idem (c : ascii) : lower_char (lower_char c) = lower_char c.
Proof. destruct c as [[] [] [] [] [] [] [] []]; reflexivity. Qed.

Lemma toLowerCase_idem (s : string) : toLowerCase (toLowerCase s) = toLowerCase s.
Proof.
  induction s as [|c s IH]; simpl; [reflexivity |].
  now rewrite lower_char_idem, IH.
Qed.

Lemma trimStart_idem (s : string) : trimStart (trimStart s) = trimStart s.
Proof.
  induction s as [|c s IH]; simpl; [reflexivity |].
  destruct (is_space c) eqn:Hc; [exact IH |]. simpl. now rewrite Hc.
Qed.

Lemma trimEnd_idem (s : string) : trimEnd (trimEnd s) = trimEnd s.
Proof.
  induction s as [|c s IH]; simpl; [reflexivity |].
  destruct (trimEnd s) as [|c' kept] eqn:Hk.
  - destruct (is_space c) eqn:Hc; simpl; [reflexivity | now rewrite Hc].
  - change (trimEnd (String c (String c' kept))) with
      (match trimEnd (String c' kept) with
       | EmptyString => if is_space c then EmptyString else String c EmptyString
       | k => String c k
       end).
    now rewrite IH.
Qed.

Lemma trimStart_trimEnd (s : string) :
  trimStart (trimEnd s) = trimEnd (trimStart s).
Proof.
  induction s as [|c s IH]; simpl; [reflexivity |].
  destruct (is_space c) eqn:Hc.
  - rewrite <- IH. destruct (trimEnd s); simpl; now rewrite ?Hc.
  - simpl. destruct (trimEnd s); simpl; now rewrite Hc.
Qed.

Lemma trim_idem (s : string) : trim (trim s) = trim s.
Proof.
  unfold trim.
  now rewrite trimStart_trimEnd, trimStart_idem, trimEnd_idem.
Qed.

(** X17. The lookup reads its query without regard to letter case and to
    white space around it: lower-casing the query, trimming it, or
    replacing it by any query with the same trimmed lower-case form
    changes nothing in the result, on any stream. *)
Theorem getLocationStats_query_normalised (StringToNumber : string -> number)
    (searchValue : string) (events : list stream_event) :
  getLocationStats StringToNumber (toLowerCase searchValue) events
    = getLocationStats StringToNumber searchValue events /\
  getLocationStats StringToNumber (trim searchValue) events
    = getLocationStats StringToNumber searchValue events /\
  getLocationStats StringToNumber (String " " searchValue) events
    = getLocationStats StringToNumber searchValue events /\
  (forall other,
     toLowerCase (trim other) = toLowerCase (trim searchValue) ->
     getLocationStats StringToNumber other events
     = getLocationStats StringToNumber searchValue events).
Proof.
  assert (Hsame : forall other,
     toLowerCase (trim other) = toLowerCase (trim searchValue) ->
     getLocationStats StringToNumber other events
     = getLocationStats StringToNumber searchValue events).
  { intros other E. unfold getLocationStats, scan. now rewrite E. }
  split; [| split; [| split; [| exact Hsame]]]; apply Hsame.
  - now rewrite <- toLowerCase_trim, toLowerCase_idem.
  - now rewrite trim_idem.
  - reflexivity.
Qed.

Lemma getLocationStats_query_normalised_witness :
  getLocationStats decimal_to_number "  deLHi " (rows_of_file sample_file)
  = getLocationStats decimal_to_number "Delhi" (rows_of_file sample_file).
Proof.
  apply (proj2 (proj2 (proj2 (getLocationStats_query_normalised
                                 decimal_to_number "Delhi"
                                 (rows_of_file sample_file))))).
  reflexivity.
Defined.

(** * The dashboard *)

(** ** Colours and categories *)

Ltac split_bands :=
  repeat match goal with
    | |- context [if num_leb ?x ?k then _ else _] => destruct (num_leb x k)
    end.

(** X18. The text, background and border classes the dashboard picks for
    an AQI number are those of the backend's category for that number,
    band for band. For the [null] AQI of a no-data reading, whose
    category is "No data", it picks the classes of "Good", and for an
    [undefined] one those of "Hazardous". *)
Theorem dashboard_classes_follow_category :
  (forall n : number,
     palette (categorizeAQI (Num n)) = Some (aqi_classes (Num n))) /\
  categorizeAQI Null = "No data" /\
  palette "No data" = None /\
  palette "Good" = Some (aqi_classes Null) /\
  palette "Hazardous" = Some (aqi_classes Undefined).
Proof.
  split; [| repeat split].
  intros n.
  unfold aqi_classes, getAQIColor, getAQIBackground, getAQIBorderColor,
    categorizeAQI, js_le. simpl ToNumber.
  split_bands; reflexivity.
Qed.

Lemma num_ltb_leb (k : Z) (n : number) :
  n <> NaN -> num_ltb (lit k) n = negb (num_leb n (lit k)).
Proof. destruct n; simpl; try reflexivity; congruence. Qed.

(** X19. The colour of a bar of the PM2.5 chart follows the category the
    backend gave the same sample: green for "Good", yellow for
    "Moderate", orange for "Unhealthy for Sensitive Groups", and red for
    everything worse, in both themes. A [null] sample, whose category is
    "No data", is drawn green. *)
Theorem bar_colours_follow_category (darkMode : bool) :
  (forall n : number,
     n <> NaN ->
     barBorderColor (Num n) = bar_border_for (categorizeAQI (Num n)) /\
     barBackgroundColor darkMode (Num n)
     = bar_background_for darkMode (categorizeAQI (Num n))) /\
  barBorderColor Null = bar_border_for "Good" /\
  barBackgroundColor darkMode Null = bar_background_for darkMode "Good".
Proof.
  split; [| split; reflexivity].
  intros n Hn.
  assert (Hchain := thresholds_chain n).
  unfold barBorderColor, barBackgroundColor, categorizeAQI, js_gt.
  simpl ToNumber. rewrite !(num_ltb_leb _ n Hn).
  destruct Hchain as (C1 & C2 & C3 & C4).
  destruct (num_leb n (lit 50)) eqn:E50;
    [apply num_leb_le in E50 | apply num_leb_nle in E50];
    (destruct (num_leb n (lit 100)) eqn:E100;
     [apply num_leb_le in E100 | apply num_leb_nle in E100]);
    (destruct (num_leb n (lit 150)) eqn:E150;
     [apply num_leb_le in E150 | apply num_leb_nle in E150]);
    try (exfalso; tauto); simpl;
    try (split; reflexivity).
  split_bands; split; reflexivity.
Qed.

Lemma bar_colours_follow_category_witness :
  barBorderColor (Num (Finite (1205 # 10))) = "#ea580c" /\
  categorizeAQI (Num (Finite (1205 # 10))) = "Unhealthy for Sensitive Groups".
Proof.
  destruct (bar_colours_follow_category false) as [Hn _].
  destruct (Hn (Finite (1205 # 10))) as [Hb _]; [discriminate |].
  split; [rewrite Hb |]; reflexivity.
Defined.

(** ** The weather icon *)

Lemma js_is_lit (z k : Z) : js_is (Num (lit z)) k = Z.eqb z k.
Proof.
  unfold js_is, lit. destruct (Z.eqb_spec z k) as [-> | Hne].
  - apply Qeq_bool_iff. reflexivity.
  - destruct (Qeq_bool (inject_Z z) (inject_Z k)) eqn:E; [| reflexivity].
    apply Qeq_bool_iff in E. rewrite inject_Z_injective in E. contradiction.
Qed.

Lemma js_ge_lit (z k : Z) : js_ge (Num (lit z)) k = Z.leb k z.
Proof. unfold js_ge, lit, num_leb, Qle_bool. simpl. now rewrite !Z.mul_1_r. Qed.

Lemma js_le_lit (z k : Z) : js_le (Num (lit z)) k = Z.leb z k.
Proof. unfold js_le, lit, num_leb, Qle_bool. simpl. now rewrite !Z.mul_1_r. Qed.

(** X20. The weather icon depends on the day flag for code 0 only,
    where it is the sun by day and the moon by night. For a whole-number
    code other than 0 it is the smog for 45 to 48, the rain for 51 to
    67, the snowflake for 71 to 77, the heavy showers for 80 to 82, the
    bolt for 95 to 99, and the plain cloud for every other code; a
    missing code gives the cloud too. *)
Theorem getWeatherIcon_bands :
  (forall code isDay,
     js_is code 0 = true ->
     getWeatherIcon code isDay = if truthy isDay then "fa-sun" else "fa-moon") /\
  (forall code day night,
     js_is code 0 = false ->
     getWeatherIcon code day = getWeatherIcon code night) /\
  (forall (z : Z) isDay,
     z <> 0%Z ->
     let icon := getWeatherIcon (Num (lit z)) isDay in
     (icon = "fa-smog" <-> (45 <= z <= 48)%Z) /\
     (icon = "fa-cloud-rain" <-> (51 <= z <= 67)%Z) /\
     (icon = "fa-snowflake" <-> (71 <= z <= 77)%Z) /\
     (icon = "fa-cloud-showers-heavy" <-> (80 <= z <= 82)%Z) /\
     (icon = "fa-bolt" <-> (95 <= z <= 99)%Z) /\
     (icon = "fa-cloud" <->
      ~ (45 <= z <= 48)%Z /\ ~ (51 <= z <= 67)%Z /\ ~ (71 <= z <= 77)%Z /\
      ~ (80 <= z <= 82)%Z /\ ~ (95 <= z <= 99)%Z)) /\
  (forall isDay,
     getWeatherIcon Null isDay = "fa-cloud" /\
     getWeatherIcon Undefined isDay = "fa-cloud").
Proof.
  split; [| split; [| split]].
  - intros code isDay H. unfold getWeatherIcon. now rewrite H.
  - intros code day night H. unfold getWeatherIcon. now rewrite H.
  - intros z isDay Hz. cbv zeta. unfold getWeatherIcon.
    rewrite !js_is_lit, !js_ge_lit, !js_le_lit.
    destruct (Z.eqb_spec z 0) as [E | _]; [contradiction |].
    destruct (Z.eqb_spec z 1), (Z.eqb_spec z 2), (Z.eqb_spec z 3);
      simpl orb; cbv iota;
      try (subst; simpl; repeat split; intros; try discriminate; try lia;
           reflexivity).
    repeat match goal with
      | |- context [Z.leb ?a ?b] => destruct (Z.leb_spec a b)
      end; simpl; repeat split; intros; try discriminate; try reflexivity;
      try lia.
  - intros isDay. split; reflexivity.
Qed.

Lemma getWeatherIcon_bands_witness :
  getWeatherIcon (Num (lit 0)) (Num (lit 1)) = "fa-sun" /\
  getWeatherIcon (Num (lit 61)) (Num (lit 1))
  = getWeatherIcon (Num (lit 61)) (Num (lit 0)) /\
  getWeatherIcon (Num (lit 86)) (Num (lit 1)) = "fa-cloud".
Proof.
  destruct getWeatherIcon_bands as (Hzero & Hflag & Hcode & _).
  split; [exact (Hzero (Num (lit 0)) (Num (lit 1)) eq_refl) |].
  split; [exact (Hflag (Num (lit 61)) (Num (lit 1)) (Num (lit 0)) eq_refl) |].
  destruct (Hcode 86%Z (Num (lit 1))) as (_ & _ & _ & _ & _ & Hcloud);
    [discriminate |].
  apply Hcloud. repeat split; lia.
Defined.

(** ** Searching and fetching *)

(** X21. [handleSearch] changes the searched city only to the trimmed
    input, and only when that is non-empty and differs from the city
    already shown; an input of white space alone gives the warning toast
    and nothing else; the city already shown gives nothing at all. So a
    city it sets is never empty, and a request carrying it is never
    answered 400 by the handler. *)
Theorem handleSearch_sets_a_city (inputCity searchCity : string) :
  (forall city,
     SetSearchCity city ∈ handleSearch inputCity searchCity ->
     city = trim inputCity /\ city <> EmptyString /\ city <> searchCity /\
     trim city = city /\
     handleSearch inputCity searchCity = [SetSearchCity city] /\
     forall StringToNumber w sent,
       exists res calls,
         handler StringToNumber w {| query_city := Some city |} sent
         = (inr res, calls) /\ status res <> 400) /\
  (trim inputCity = EmptyString ->
   handleSearch inputCity searchCity
   = [ShowToast "Please enter a city name" "warning"]) /\
  (trim inputCity = searchCity -> searchCity <> EmptyString ->
   handleSearch inputCity searchCity = []).
Proof.
  unfold handleSearch. cbv zeta. split; [| split].
  - intros city Hin.
    destruct (String.eqb_spec (trim inputCity) EmptyString) as [E | Hne]; simpl in Hin.
    + apply list_elem_of_singleton in Hin. discriminate.
    + destruct (String.eqb_spec (trim inputCity) searchCity) as [E | Hdiff];
        simpl in Hin; [now apply elem_of_nil in Hin |].
      apply list_elem_of_singleton in Hin. injection Hin as ->.
      split; [reflexivity |]. split; [exact Hne |]. split; [exact Hdiff |].
      split; [apply trim_idem |]. split; [reflexivity |].
      intros StringToNumber w sent.
      destruct (handler_answer_shape StringToNumber w
                  {| query_city := Some (trim inputCity) |} sent)
        as (res & calls & Hrun & _ & H400 & _).
      exists res, calls. split; [exact Hrun |].
      intros Hst. apply H400 in Hst as [H | H]; simpl in H; congruence.
  - intros ->. reflexivity.
  - intros E Hne. rewrite E.
    destruct (String.eqb_spec searchCity EmptyString); [contradiction |].
    simpl. now rewrite String.eqb_refl.
Qed.

Lemma handleSearch_sets_a_city_witness :
  handleSearch "  Pune " "Delhi" = [SetSearchCity "Pune"] /\
  handleSearch "   " "Delhi" = [ShowToast "Please enter a city name" "warning"] /\
  handleSearch " Delhi" "Delhi" = [].
Proof.
  destruct (handleSearch_sets_a_city "  Pune " "Delhi") as (Hset & _).
  destruct (Hset "Pune") as (_ & _ & _ & _ & Hrun & _); [left |].
  split; [exact Hrun |]. split.
  - apply (proj1 (proj2 (handleSearch_sets_a_city "   " "Delhi"))). reflexivity.
  - apply (proj2 (proj2 (handleSearch_sets_a_city " Delhi" "Delhi")));
      [reflexivity | discriminate].
Defined.

Lemma never_404 (a : js_value) : strict_equal (js_not a) (JSNumber 404) = false.
Proof. reflexivity. Qed.

Lemma on_catch_gives_up (city : string) (retryCount : nat) (err : request_error) :
  on_catch city retryCount err
  = [ SetError (Some (errorMessage err)); ShowToast (errorMessage err) "error" ]
    ++ (if strict_equal (status_of err) (JSNumber 404)
        then [ShowToast ("City " ++ dquote ++ city ++ dquote
                         ++ " not found. Showing sample data for Delhi instead.")%string
                        "warning"]
        else []).
Proof. unfold on_catch. now rewrite never_404, andb_false_r. Qed.

(** X22. [fetchCityData] never retries. Its test for a retry compares
    the negation of the status, a boolean, with the number 404, which is
    false for every error and every retry count; so no retry is ever
    scheduled, the retry count is never raised above 0, and every failed
    request sets the error at once, to the server's error text when it
    has one, else to the error's own message, else to the default text.
    Loading is switched off last in every case. *)
Theorem fetchCityData_never_retries (city : string) (isRetry : bool)
    (retryCount : nat) (result : axios_result) :
  let effects := fetchCityData city isRetry retryCount result in
  (forall e, e ∈ effects ->
     (forall ms c, e <> RetryAfter ms c) /\
     (forall n, e = SetRetryCount n -> n = 0)) /\
  (forall err, result = Failed err ->
     SetError (Some (errorMessage err)) ∈ effects /\
     ShowToast (errorMessage err) "error" ∈ effects /\
     (forall text, (err_response err ≫= data_error) = Some text ->
        text <> EmptyString -> errorMessage err = text)) /\
  last effects = Some (SetLoading false).
Proof.
  cbv zeta. unfold fetchCityData. split; [| split].
  - intros e Hin.
    assert (Hcatch : forall err, e ∈ on_catch city retryCount err ->
              (forall ms c, e <> RetryAfter ms c) /\
              (forall n, e = SetRetryCount n -> n = 0)).
    { intros err He. rewrite on_catch_gives_up in He.
      destruct (strict_equal (status_of err) (JSNumber 404));
        repeat (apply elem_of_cons in He as [-> | He]);
        try (now apply elem_of_nil in He);
        split; intros; discriminate. }
    apply elem_of_app in Hin as [Hin | Hin].
    { destruct isRetry; [now apply elem_of_nil in Hin |].
      repeat (apply elem_of_cons in Hin as [-> | Hin]);
        try (now apply elem_of_nil in Hin);
        split; intros; try discriminate; congruence. }
    apply elem_of_cons in Hin as [-> | Hin]; [split; intros; discriminate |].
    apply elem_of_app in Hin as [Hin | Hin].
    + destruct result as [[d|] | err]; [| now apply Hcatch in Hin
                                          | now apply Hcatch in Hin].
      repeat (apply elem_of_cons in Hin as [-> | Hin]);
        try (now apply elem_of_nil in Hin);
        split; intros; try discriminate; congruence.
    + apply list_elem_of_singleton in Hin as ->. split; intros; discriminate.
  - intros err ->. rewrite on_catch_gives_up. split; [| split].
    + apply elem_of_app. right. right. apply elem_of_app. left.
      apply elem_of_app. left. left.
    + apply elem_of_app. right. right. apply elem_of_app. left.
      apply elem_of_app. left. right. left.
    + intros text Htext Hne. unfold errorMessage. rewrite Htext. simpl.
      destruct (String.eqb_spec text EmptyString); [contradiction | reflexivity].
  - rewrite !app_assoc. apply last_snoc.
Qed.

Lemma fetchCityData_never_retries_witness :
  let err := {| err_response := Some {| response_status := Some 500;
                                        data_error := Some "City not found" |};
                err_message := Some "Request failed with status code 500" |} in
  SetError (Some "City not found") ∈ fetchCityData "Atlantis" false 0 (Failed err).
Proof.
  cbv zeta.
  destruct (fetchCityData_never_retries "Atlantis" false 0
              (Failed {| err_response := Some {| response_status := Some 500;
                                                 data_error := Some "City not found" |};
                         err_message := Some "Request failed with status code 500" |}))
    as (_ & Hfail & _).
  destruct (Hfail _ eq_refl) as (Hset & _). exact Hset.
Defined.

(** ** The PM2.5 chart *)

Lemma history_points_pm25 st text doc h samples times :
  hourly doc = Some h -> pm2_5 h = Some samples -> hourly_time h = Some times ->
  History.pm25 <$> history_points (Answer st text (inr doc)) = samples.
Proof.
  intros Hh Hs Ht. unfold history_points. rewrite Hh, Hs, Ht.
  apply list_eq. intros i. rewrite list_lookup_fmap, list_lookup_imap.
  destruct (samples !! i); reflexivity.
Qed.

(** X23. From a report whose air-quality section arrived, the PM2.5
    chart draws the first eight history points and no more, in order,
    each bar with the colours of its own sample. When the history came
    from an Open-Meteo document with samples and times, the bars are the
    first eight samples of that document. *)
Theorem aqiChartData_first_eight (darkMode : bool) (s : aqi_section) :
  exists chart,
    aqiChartData darkMode (Section_ s) = inr chart /\
    data chart = take 8 (History.pm25 <$> history s) /\
    length (data chart) = min 8 (length (history s)) /\
    (forall i v, data chart !! i = Some v ->
       borderColor chart !! i = Some (barBorderColor v) /\
       backgroundColor chart !! i = Some (barBackgroundColor darkMode v)) /\
    (forall (w : world) st text doc h samples times,
       s = section_of w ->
       air_quality_api w = Answer st text (inr doc) ->
       hourly doc = Some h -> pm2_5 h = Some samples ->
       hourly_time h = Some times ->
       data chart = take 8 samples).
Proof.
  eexists. split; [reflexivity |]. simpl.
  assert (Hdata : History.pm25 <$> take 8 (history s)
                  = take 8 (History.pm25 <$> history s))
    by apply fmap_take.
  split; [exact Hdata |]. split; [| split].
  - now rewrite length_fmap, length_take.
  - intros i v Hi. rewrite !list_lookup_fmap in *.
    destruct (take 8 (history s) !! i) as [item|]; simpl in *; [| discriminate].
    injection Hi as <-. auto.
  - intros w st text doc h samples times -> Hw Hh Hs Ht.
    rewrite Hdata. simpl. rewrite Hw.
    now rewrite (history_points_pm25 st text doc h samples times Hh Hs Ht).
Qed.

Lemma aqiChartData_first_eight_witness :
  exists chart,
    aqiChartData false (Section_ sample_section) = inr chart /\
    data chart = [Num (lit 40); Null] /\
    borderColor chart !! 1 = Some "#059669".
Proof.
  destruct (aqiChartData_first_eight false sample_section)
    as (chart & Hrun & Hdata & _ & Hcolour & _).
  exists chart. split; [exact Hrun |]. split; [exact Hdata |].
  apply (Hcolour 1 Null). rewrite Hdata. reflexivity.
Defined.

(** X24. A 200 report built before the air-quality task had assigned its
    result carries the empty string under [airQuality], and computing the
    chart data from it throws: the string has no [history] to slice. *)
Theorem aqiChartData_throws_on_late_section
    (StringToNumber : string -> number) (w : world) (req : request)
    (sent calls : list call) (rep : Report.t) (darkMode : bool) :
  handler StringToNumber w req sent
    = (inr {| status := 200; sent_body := ReportBody rep |}, calls) ->
  aqi_assigned w = false ->
  exists thrown, aqiChartData darkMode (Report.airQuality rep) = inl thrown.
Proof.
  intros Hrun Hlate.
  rewrite (airQuality_empty_unless_assigned _ _ _ _ _ _ _ Hrun Hlate).
  eexists. reflexivity.
Qed.

Lemma aqiChartData_throws_on_late_section_witness :
  exists thrown,
    aqiChartData true (Report.airQuality (sample_report EmptyText)) = inl thrown.
Proof.
  exact (aqiChartData_throws_on_late_section decimal_to_number
           (sample_world false) sample_request [] sample_calls
           (sample_report EmptyText) true (sample_run false) eq_refl).
Defined.
